(** * Voice RAG demo: control flow, session state and temporary files

    A shallow embedding of [examples/indic-agentic-search/demo_rag_voice_simple.py]
    (class [VoiceRAGDemo]).  The script is orchestration glue around remote
    services, so what is modelled is what the script itself decides: the order
    of the calls it makes, the exceptions it catches and the ones it lets
    through, what it stores in the session object, and which temporary files
    it creates and removes.

    - Python values are a small universe [pyval]; attribute probing
      ([hasattr], [isinstance(_, list)], truthiness) is defined on it.
    - Every call into a library (sounddevice, scipy, sarvamai, openai, pygame,
      tempfile) is answered by an environment [Env], indexed by a call counter
      so that two calls with equal arguments may be answered differently.
      An answer is a value or a raised exception.
    - The interpreter state [world] holds the session fields, the set of
      existing files, the call counter and the trace of calls made so far.
    - [print] is not modelled: standard output is not part of the state. *)

From Stdlib Require Import ZArith.
From stdpp Require Import base gmap strings list pretty.

Local Open Scope string_scope.
Local Open Scope list_scope.

(** ** Python values *)

Module Py.

#[warnings="-register-all"]
Inductive pyval : Type :=
| VNone
| VBool (b : bool)
| VInt (z : Z)
| VStr (s : string)
| VList (items : list pyval)
| VObj (attrs : list (string * pyval)).

(** Exceptions.  The handlers of the script name exactly two classes:
    [KeyboardInterrupt] (a [BaseException] that is not an [Exception]) and
    [Exception], which carries its message, the text [str(e)] yields. *)
Inductive exn : Type :=
| KeyboardInterrupt
| Exception (msg : string).

Inductive result (A : Type) : Type :=
| Ok (a : A)
| Raise (e : exn).
Arguments Ok {A} a.
Arguments Raise {A} e.

(** [bool(v)]: the truth value Python gives [v] in [if v] and [not v]. *)
Definition truthy (v : pyval) : bool :=
  match v with
  | VNone => false
  | VBool b => b
  | VInt z => negb (z =? 0)%Z
  | VStr s => negb (String.eqb s "")
  | VList items => match items with [] => false | _ :: _ => true end
  | VObj _ => true
  end.

Fixpoint assoc (name : string) (attrs : list (string * pyval)) : option pyval :=
  match attrs with
  | [] => None
  | (k, v) :: rest => if String.eqb k name then Some v else assoc name rest
  end.

(** [hasattr(v, name)] for the attribute names the script probes
    ([id], [output], [content], [text], [audios], [transcript]); none of
    them is an attribute of a built-in value. *)
Definition hasattr (v : pyval) (name : string) : bool :=
  match v with
  | VObj attrs => match assoc name attrs with Some _ => true | None => false end
  | _ => false
  end.

(** [v.name]: raises [AttributeError] when the attribute is missing. *)
Definition getattr (v : pyval) (name : string) : result pyval :=
  match v with
  | VObj attrs =>
      match assoc name attrs with
      | Some a => Ok a
      | None => Raise (Exception ("object has no attribute '" +:+ name +:+ "'"))
      end
  | _ => Raise (Exception ("object has no attribute '" +:+ name +:+ "'"))
  end.

(** The attribute [name] of [v], if it has one. *)
Definition attr (v : pyval) (name : string) : option pyval :=
  match v with
  | VObj attrs => assoc name attrs
  | _ => None
  end.

(** The value of [v.name] where a [hasattr(v, name)] test has passed
    (the right operand of [hasattr(v, name) and ... v.name ...]). *)
Definition attr_or_none (v : pyval) (name : string) : pyval :=
  match v with
  | VObj attrs => match assoc name attrs with Some a => a | None => VNone end
  | _ => VNone
  end.

(** The elements of a list value. *)
Definition list_items (v : pyval) : list pyval :=
  match v with VList items => items | _ => [] end.

(** [isinstance(v, list)] *)
Definition is_list (v : pyval) : bool :=
  match v with VList _ => true | _ => false end.

(** [len(v)]: raises [TypeError] on a value without a length. *)
Definition len (v : pyval) : result Z :=
  match v with
  | VStr s => Ok (Z.of_nat (String.length s))
  | VList items => Ok (Z.of_nat (length items))
  | _ => Raise (Exception "object has no len()")
  end.

(** [v[0]]: only used by the script behind a [len(v) > 0] test. *)
Definition item0 (v : pyval) : result pyval :=
  match v with
  | VList (x :: _) => Ok x
  | VList [] => Raise (Exception "list index out of range")
  | _ => Raise (Exception "object is not subscriptable")
  end.

(** Sequencing of fallible pure steps. *)
Definition and_then {A B} (r : result A) (k : A -> result B) : result B :=
  match r with
  | Ok a => k a
  | Raise e => Raise e
  end.

End Py.
Import Py.

Notation "x <~ r ;; k" := (and_then r (fun x => k))
  (at level 100, r at next level, right associativity).

(** ** Calls into libraries, and the environment that answers them *)

Inductive call : Type :=
| sd_rec (frames samplerate : Z)
| sd_wait
| NamedTemporaryFile (suffix : string)
| wavfile_write (path : string)
| tmp_file_write (path : string)
| open_rb (path : string)
| os_unlink (path : string)
| base64_b64decode (data : pyval)
| sarvam_save (path : string)
| sarvam_transcribe (path : string) (language_code : string)
| sarvam_convert (text : pyval) (speaker language_code : string)
| music_load (path : string)
| music_play
| music_poll
| files_create (path : string)
| vector_stores_create (name : string)
| vector_stores_files_create (vector_store_id file_id : pyval)
| responses_create (model : string) (vector_store_id input previous_response_id : pyval).

Inductive outcome : Type :=
| Returned
| Raised (e : exn).

Definition event : Type := call * outcome.

(** A trace entry is a library call or a marker for entering one of the
    methods the properties below count, kept in one list so that the order
    of method entries relative to the calls is recorded. *)
Inductive entry : Type :=
| Lib (ev : event)
| Enter_play_base64_audio (base64_audio : pyval) (segment_index : nat)
| Enter_play_audio_with_save (audio_response : pyval) (segment_index : nat)
| Enter_text_to_speech (text : pyval)
| Enter_process_query (user_input : pyval).

(** The answers of the outside world.  The first argument of every field is
    the call counter.  [env_music_busy] answers the whole polling loop
    [while get_busy(): wait(100)]: the number of polls that found the mixer
    busy, or the exception one of them raised. *)
Record Env : Type := {
  env_sd_rec : nat -> result unit;
  env_sd_wait : nat -> result unit;
  env_tempname : nat -> string -> result string;
  env_wavfile_write : nat -> string -> result unit;
  env_tmp_file_write : nat -> string -> result unit;
  env_b64decode : nat -> pyval -> result string;
  env_save : nat -> pyval -> string -> result unit;
  env_transcribe : nat -> string -> string -> result pyval;
  env_convert : nat -> pyval -> string -> string -> result pyval;
  env_music_load : nat -> string -> result unit;
  env_music_play : nat -> result unit;
  env_music_busy : nat -> result nat;
  env_files_create : nat -> string -> result pyval;
  env_vector_stores_create : nat -> string -> result pyval;
  env_vector_stores_files_create : nat -> pyval -> pyval -> result pyval;
  env_responses_create : nat -> string -> pyval -> pyval -> pyval -> result pyval;
  env_str : pyval -> string
}.

(** ** Interpreter state *)

Record world : Type := World {
  vector_store_id : pyval;
  previous_response_id : pyval;
  files : gset string;
  clock : nat;
  trace : list entry
}.

Definition set_vector_store_id (v : pyval) (w : world) : world :=
  World v (previous_response_id w) (files w) (clock w) (trace w).

Definition set_previous_response_id (v : pyval) (w : world) : world :=
  World (vector_store_id w) v (files w) (clock w) (trace w).

Definition set_files (f : gset string) (w : world) : world :=
  World (vector_store_id w) (previous_response_id w) f (clock w) (trace w).

Definition log (e : entry) (w : world) : world :=
  World (vector_store_id w) (previous_response_id w) (files w) (clock w)
        (trace w ++ [e]).

Definition tick (w : world) : world :=
  World (vector_store_id w) (previous_response_id w) (files w) (S (clock w))
        (trace w).

(** [VoiceRAGDemo.__init__]: both session fields start as [None]. *)
Definition init_world (existing : gset string) : world :=
  World VNone VNone existing 0 [].

(** ** A state and exception monad *)

Definition M (A : Type) : Type := world -> result A * world.

Definition ret {A} (a : A) : M A := fun w => (Ok a, w).

Definition bind {A B} (m : M A) (k : A -> M B) : M B :=
  fun w =>
    match m w with
    | (Ok a, w1) => k a w1
    | (Raise e, w1) => (Raise e, w1)
    end.

Notation "x <- m ;; k" := (bind m (fun x => k))
  (at level 100, m at next level, right associativity).
Notation "m ;;; k" := (bind m (fun _ => k))
  (at level 100, right associativity).

Definition lift {A} (r : result A) : M A := fun w => (r, w).

Definition get_world : M world := fun w => (Ok w, w).

Definition modify (f : world -> world) : M unit := fun w => (Ok tt, f w).

(** [try: body / except Exception as e: handler(str(e))].
    A [KeyboardInterrupt] is not an [Exception] and passes through. *)
Definition try_except {A} (body : M A) (handler : string -> M A) : M A :=
  fun w =>
    match body w with
    | (Ok a, w1) => (Ok a, w1)
    | (Raise (Exception msg), w1) => handler msg w1
    | (Raise KeyboardInterrupt, w1) => (Raise KeyboardInterrupt, w1)
    end.

(** [try: body / finally: cleanup].  The cleanup runs on every way out of
    the body; an exception raised by the cleanup replaces the body's. *)
Definition try_finally {A} (body : M A) (cleanup : M unit) : M A :=
  fun w =>
    match body w with
    | (r, w1) =>
        match cleanup w1 with
        | (Ok _, w2) => (r, w2)
        | (Raise e, w2) => (Raise e, w2)
        end
    end.

Definition outcome_of {A} (r : result A) : outcome :=
  match r with
  | Ok _ => Returned
  | Raise e => Raised e
  end.

(** A library call: ask the environment, record the call and how it ended,
    advance the counter. *)
Definition extern {A} (c : call) (answer : nat -> result A) : M A :=
  fun w =>
    let r := answer (clock w) in
    (r, tick (log (Lib (c, outcome_of r)) w)).

Definition enter (e : entry) : M unit := modify (log e).

(** ** File system primitives, decided by the set of existing files *)

Definition os_path_exists (path : string) : M bool :=
  fun w => (Ok (bool_decide (path ∈ files w)), w).

Definition unlink (path : string) : M unit :=
  fun w =>
    if bool_decide (path ∈ files w)
    then (Ok tt, tick (log (Lib (os_unlink path, Returned))
                         (set_files (files w ∖ {[path]}) w)))
    else (Raise (Exception "No such file or directory"),
          tick (log (Lib (os_unlink path, Raised (Exception "No such file or directory"))) w)).

Definition open_file (path : string) : M unit :=
  fun w =>
    if bool_decide (path ∈ files w)
    then (Ok tt, tick (log (Lib (open_rb path, Returned)) w))
    else (Raise (Exception "No such file or directory"),
          tick (log (Lib (open_rb path, Raised (Exception "No such file or directory"))) w)).

Definition MODEL_NAME : string := "openai@gpt-4.1-mini".

(** How one pass through the body of [while True] ends: by falling off its
    end or [continue] (both start the next pass), or by [break]. *)
Inductive loop_ctl : Type :=
| Next
| Break.

(** [try: body / except KeyboardInterrupt: on_interrupt /
     except Exception as e: on_exception(str(e))].
    The handlers are outside the protected region: what they raise leaves
    the statement. *)
Definition try_except_interrupt {A} (body : M A) (on_interrupt : M A)
    (on_exception : string -> M A) : M A :=
  fun w =>
    match body w with
    | (Ok a, w1) => (Ok a, w1)
    | (Raise KeyboardInterrupt, w1) => on_interrupt w1
    | (Raise (Exception msg), w1) => on_exception msg w1
    end.

Section VoiceRAGDemo.

Variable env : Env.

(** [str(v)] *)
Definition str (v : pyval) : string :=
  match v with
  | VStr s => s
  | _ => env_str env v
  end.

(** [tempfile.NamedTemporaryFile(suffix=..., delete=False)]: a file with
    the name the environment picks exists from then on. *)
Definition named_temporary_file (suffix : string) : M string :=
  path <- extern (NamedTemporaryFile suffix) (fun t => env_tempname env t suffix) ;;
  modify (fun w => set_files ({[path]} ∪ files w) w) ;;;
  ret path.

(** [upload_file(file_path)] *)
Definition upload_file (file_path : string) : M pyval :=
  open_file file_path ;;;
  response <- extern (files_create file_path)
                (fun t => env_files_create env t file_path) ;;
  lift (getattr response "id").

(** [create_vector_store(name)] *)
Definition create_vector_store (name : string) : M pyval :=
  response <- extern (vector_stores_create name)
                (fun t => env_vector_stores_create env t name) ;;
  lift (getattr response "id").

(** [add_file_to_vector_store(vector_store_id, file_id)]; the chunking
    strategy and the attributes are literals of the source. *)
Definition add_file_to_vector_store (vs_id file_id : pyval) : M unit :=
  extern (vector_stores_files_create vs_id file_id)
    (fun t => env_vector_stores_files_create env t vs_id file_id) ;;;
  ret tt.

(** [setup_rag_system(file_path, vector_store_name)] *)
Definition setup_rag_system (file_path vector_store_name : string) : M pyval :=
  file_id <- upload_file file_path ;;
  vs_id <- create_vector_store vector_store_name ;;
  add_file_to_vector_store vs_id file_id ;;;
  modify (set_vector_store_id vs_id) ;;;
  ret vs_id.

(** [record_audio(duration=5, sample_rate=44100)] *)
Definition record_audio (duration sample_rate : Z) : M string :=
  extern (sd_rec (duration * sample_rate) sample_rate) (env_sd_rec env) ;;;
  extern sd_wait (env_sd_wait env) ;;;
  tmp_file <- named_temporary_file ".wav" ;;
  extern (wavfile_write tmp_file) (fun t => env_wavfile_write env t tmp_file) ;;;
  ret tmp_file.

(** [speech_to_text(audio_file, lang_code="hi-IN")] *)
Definition speech_to_text (audio_file : string) (lang_code : string) : M pyval :=
  try_finally
    (try_except
       (open_file audio_file ;;;
        response <- extern (sarvam_transcribe audio_file lang_code)
                      (fun t => env_transcribe env t audio_file lang_code) ;;
        text <- lift (getattr response "transcript") ;;
        ret text)
       (fun e => ret (VStr ("Error with speech recognition: " +:+ e))))
    (present <- os_path_exists audio_file ;;
     if present then unlink audio_file else ret tt).

(** The polling loop [while pygame.mixer.music.get_busy(): pygame.time.wait(100)] *)
Definition wait_for_playback : M nat :=
  extern music_poll (env_music_busy env).

(** [_play_base64_audio(base64_audio, segment_index)] *)
Definition _play_base64_audio (base64_audio : pyval) (segment_index : nat) : M unit :=
  enter (Enter_play_base64_audio base64_audio segment_index) ;;;
  try_except
    (extern (base64_b64decode base64_audio)
       (fun t => env_b64decode env t base64_audio) ;;;
     temp_file_path <-
       (tmp_file <- named_temporary_file
                      ("_segment_" +:+ pretty segment_index +:+ ".wav") ;;
        extern (tmp_file_write tmp_file)
          (fun t => env_tmp_file_write env t tmp_file) ;;;
        ret tmp_file) ;;
     extern (music_load temp_file_path)
       (fun t => env_music_load env t temp_file_path) ;;;
     extern music_play (env_music_play env) ;;;
     wait_for_playback ;;;
     unlink temp_file_path)
    (fun e => ret tt).

(** [_play_audio_with_save(audio_response, segment_index)] *)
Definition _play_audio_with_save (audio_response : pyval) (segment_index : nat) : M unit :=
  enter (Enter_play_audio_with_save audio_response segment_index) ;;;
  try_except
    (temp_file_path <-
       (tmp_file <- named_temporary_file
                      ("_segment_" +:+ pretty segment_index +:+ ".wav") ;;
        extern (sarvam_save tmp_file)
          (fun t => env_save env t audio_response tmp_file) ;;;
        ret tmp_file) ;;
     extern (music_load temp_file_path)
       (fun t => env_music_load env t temp_file_path) ;;;
     extern music_play (env_music_play env) ;;;
     wait_for_playback ;;;
     unlink temp_file_path)
    (fun e => ret tt).

(** [for i, audio_data in enumerate(audio_segments): self._play_base64_audio(audio_data, i)],
    from index [i] on. *)
Fixpoint play_segments (audio_segments : list pyval) (i : nat) : M unit :=
  match audio_segments with
  | [] => ret tt
  | audio_data :: rest =>
      _play_base64_audio audio_data i ;;;
      play_segments rest (S i)
  end.

(** The [try] block of [text_to_speech]. *)
Definition synthesize_and_play (text : pyval) (speaker lang_code : string) : M unit :=
  lift (len text) ;;;
  audio_response <- extern (sarvam_convert text speaker lang_code)
                      (fun t => env_convert env t text speaker lang_code) ;;
  if hasattr audio_response "audios" && is_list (attr_or_none audio_response "audios")
  then
    audio_segments <- lift (getattr audio_response "audios") ;;
    play_segments (list_items audio_segments) 0
  else
    _play_audio_with_save audio_response 0.

(** [text_to_speech(text, speaker="anushka", lang_code="hi-IN")] *)
Definition text_to_speech (text : pyval) (speaker lang_code : string) : M unit :=
  enter (Enter_text_to_speech text) ;;;
  try_except
    (synthesize_and_play text speaker lang_code)
    (fun e => ret tt).

(** The answer-extraction part of [process_query] (the nested [if]s after
    the response identifier is stored).  It reads the response only. *)
Definition extract_text (response : pyval) : result pyval :=
  if hasattr response "output" && truthy (attr_or_none response "output") then
    output <~ getattr response "output" ;;
    if is_list output && (0 <? List.length (list_items output))%nat then
      output0 <~ item0 output ;;
      if hasattr output0 "content" && truthy (attr_or_none output0 "content") then
        content <~ getattr output0 "content" ;;
        if is_list content && (0 <? List.length (list_items content))%nat then
          content0 <~ item0 content ;;
          getattr content0 "text"
        else if hasattr content "text" then
          getattr content "text"
        else
          Ok (VStr (str content))
      else
        Ok (VStr (str output0))
    else
      Ok (VStr (str output))
  else
    Ok (VStr "Sorry, I couldn't generate a response.").

(** [process_query(user_input)].  The tool dictionary is a literal of the
    source apart from the vector-store identifier, so the call carries the
    model name, that identifier, the input and the previous response
    identifier. *)
Definition process_query (user_input : pyval) : M pyval :=
  enter (Enter_process_query user_input) ;;;
  self <- get_world ;;
  if negb (truthy (vector_store_id self)) then
    ret (VStr "RAG system not initialized. Please upload a document first.")
  else
    try_except
      (self <- get_world ;;
       response <- extern (responses_create MODEL_NAME (vector_store_id self)
                             user_input (previous_response_id self))
                     (fun t => env_responses_create env t MODEL_NAME
                                 (vector_store_id self) user_input
                                 (previous_response_id self)) ;;
       (if hasattr response "id" then
          response_id <- lift (getattr response "id") ;;
          modify (set_previous_response_id response_id)
        else ret tt) ;;;
       lift (extract_text response))
      (fun e => ret (VStr ("Error processing query: " +:+ e))).

(** The [try] block of one pass of [conversation_loop]. *)
Definition loop_body : M loop_ctl :=
  audio_file <- record_audio 5 44100 ;;
  user_input <- speech_to_text audio_file "hi-IN" ;;
  if negb (truthy user_input) then
    ret Next
  else
    response <- process_query user_input ;;
    text_to_speech response "anushka" "hi-IN" ;;;
    ret Next.

(** One pass of [while True] in [conversation_loop], handlers included. *)
Definition iteration : M loop_ctl :=
  try_except_interrupt
    loop_body
    (text_to_speech (VStr "Goodbye!") "anushka" "hi-IN" ;;; ret Break)
    (fun e => text_to_speech (VStr "Sorry, I encountered an error.") "anushka" "hi-IN" ;;;
              ret Next).

(** [conversation_loop()], run for at most [fuel] passes.  [None] means
    the loop is still running when the fuel is spent; [Some r] that it
    was left, by [break] ([Ok]) or by an exception. *)
Fixpoint conversation_loop (fuel : nat) (w : world) : option (result unit) * world :=
  match fuel with
  | O => (None, w)
  | S fuel' =>
      match iteration w with
      | (Ok Next, w1) => conversation_loop fuel' w1
      | (Ok Break, w1) => (Some (Ok tt), w1)
      | (Raise e, w1) => (Some (Raise e), w1)
      end
  end.

End VoiceRAGDemo.

(** ** Observations on traces *)

(** A library call that was cut short by the interruption signal. *)
Definition is_interrupt (e : entry) : bool :=
  match e with
  | Lib (_, Raised KeyboardInterrupt) => true
  | _ => false
  end.

Definition interrupted (evs : list entry) : Prop :=
  Exists (fun e => is_interrupt e = true) evs.

Definition is_lib (e : entry) : bool :=
  match e with
  | Lib _ => true
  | _ => false
  end.

(** The segment playbacks entered, in trace order: index and payload. *)
Fixpoint playback_invocations (evs : list entry) : list (nat * pyval) :=
  match evs with
  | [] => []
  | Enter_play_base64_audio a i :: rest => (i, a) :: playback_invocations rest
  | _ :: rest => playback_invocations rest
  end.

(** The synthesis calls entered, in trace order. *)
Fixpoint speech_invocations (evs : list entry) : list pyval :=
  match evs with
  | [] => []
  | Enter_text_to_speech text :: rest => text :: speech_invocations rest
  | _ :: rest => speech_invocations rest
  end.

Definition is_speech_entry (e : entry) : bool :=
  match e with
  | Enter_text_to_speech _ => true
  | _ => false
  end.

(** [enumerate(segments)], counting from [i]. *)
Fixpoint enumerate_from (i : nat) (segments : list pyval) : list (nat * pyval) :=
  match segments with
  | [] => []
  | a :: rest => (i, a) :: enumerate_from (S i) rest
  end.

Definition is_play_started (e : entry) : bool :=
  match e with
  | Lib (music_play, Returned) => true
  | _ => false
  end.

Definition is_poll (e : entry) : bool :=
  match e with
  | Lib (music_poll, _) => true
  | _ => false
  end.

(** Playback is waited for: each [music.play()] that returned is directly
    followed by the polling loop, so nothing else (in particular no later
    segment) starts while the mixer may still be busy with it. *)
Fixpoint waits_for_playback (playing : bool) (evs : list entry) : bool :=
  match evs with
  | [] => negb playing
  | e :: rest =>
      if playing then is_poll e && waits_for_playback false rest
      else waits_for_playback (is_play_started e) rest
  end.

(** Entries of voice capture and transcription: what one pass of the loop
    may do before it looks at the transcript. *)
Definition is_capture_or_transcribe (e : entry) : bool :=
  match e with
  | Lib (sd_rec _ _, _) | Lib (sd_wait, _) | Lib (NamedTemporaryFile _, _)
  | Lib (wavfile_write _, _) | Lib (open_rb _, _) | Lib (sarvam_transcribe _ _, _)
  | Lib (os_unlink _, _) => true
  | _ => false
  end.

(** [tracks P m]: running [m] only appends to the trace, every appended
    entry satisfies [P], and if [m] ends in [KeyboardInterrupt] then one
    of the appended library calls raised it. *)
Definition tracks (P : entry -> Prop) {A} (m : M A) : Prop :=
  forall w, exists evs,
    trace (m w).2 = trace w ++ evs
    /\ Forall P evs
    /\ ((m w).1 = Raise KeyboardInterrupt -> interrupted evs).

(** ** The extraction order in the words of the specification *)

Section AnswerByShape.

Variable env : Env.

(** The answer for a response whose output is non-empty: the first
    content element's text if the output is a non-empty list whose first
    element has a non-empty content that is a non-empty list; else that
    content's text attribute; else the string cast of the content, or of
    the first output element, or of the whole output, whichever is the
    innermost shape present. *)
Definition answer_by_shape (output : pyval) : result pyval :=
  match output with
  | VList (first :: _) =>
      match attr first "content" with
      | Some content =>
          if truthy content then
            match content with
            | VList (content0 :: _) => getattr content0 "text"
            | _ =>
                match attr content "text" with
                | Some text => Ok text
                | None => Ok (VStr (str env content))
                end
            end
          else Ok (VStr (str env first))
      | None => Ok (VStr (str env first))
      end
  | _ => Ok (VStr (str env output))
  end.

End AnswerByShape.

(** What [process_query] makes of the outcome of its [try] block. *)
Definition reported (r : result pyval) : result pyval :=
  match r with
  | Ok v => Ok v
  | Raise (Exception msg) => Ok (VStr ("Error processing query: " +:+ msg))
  | Raise KeyboardInterrupt => Raise KeyboardInterrupt
  end.

(** ** Concrete environments and states for the closed examples *)

Definition sample_response : pyval :=
  VObj [("id", VStr "resp_1");
        ("output", VList [VObj [("content", VList [VObj [("text", VStr "forty-two")]])]])].

(** An environment that answers by kind of call, the same way at every
    call: capture, transcription, query, synthesis, audio loading and
    attachment are given; temporary files are named after the call counter
    and the remaining calls succeed. *)
Definition scripted_env (capture : result unit) (transcription answer synthesis : result pyval)
    (loading : result unit) (attachment : result pyval) : Env := {|
  env_sd_rec := fun _ => capture;
  env_sd_wait := fun _ => Ok tt;
  env_tempname := fun t suffix => Ok ("/tmp/tmp" +:+ pretty t +:+ suffix);
  env_wavfile_write := fun _ _ => Ok tt;
  env_tmp_file_write := fun _ _ => Ok tt;
  env_b64decode := fun _ _ => Ok "RIFF";
  env_save := fun _ _ _ => Ok tt;
  env_transcribe := fun _ _ _ => transcription;
  env_convert := fun _ _ _ _ => synthesis;
  env_music_load := fun _ _ => loading;
  env_music_play := fun _ => Ok tt;
  env_music_busy := fun _ => Ok 3;
  env_files_create := fun _ _ => Ok (VObj [("id", VStr "file_1")]);
  env_vector_stores_create := fun _ _ => Ok (VObj [("id", VStr "vs_1")]);
  env_vector_stores_files_create := fun _ _ _ => attachment;
  env_responses_create := fun _ _ _ _ _ => answer;
  env_str := fun _ => "<object>"
|}.

Definition heard (text : string) : result pyval :=
  Ok (VObj [("transcript", VStr text)]).

Definition two_segments : result pyval :=
  Ok (VObj [("audios", VList [VStr "UklGRg=="; VStr "UklGRg=="])]).

Definition attached : result pyval :=
  Ok (VObj [("id", VStr "file_1")]).

(** Every library call succeeds; synthesis returns two encoded segments. *)
Definition calm_env : Env :=
  scripted_env (Ok tt) (heard "what is the answer") (Ok sample_response)
    two_segments (Ok tt) attached.

(** The microphone picks up nothing. *)
Definition silent_env : Env :=
  scripted_env (Ok tt) (heard "") (Ok sample_response) two_segments (Ok tt) attached.

(** The responses service cannot be reached. *)
Definition offline_env : Env :=
  scripted_env (Ok tt) (heard "what is the answer")
    (Raise (Exception "Connection error.")) two_segments (Ok tt) attached.

(** The mixer rejects the audio data. *)
Definition bad_audio_env : Env :=
  scripted_env (Ok tt) (heard "what is the answer") (Ok sample_response)
    two_segments (Raise (Exception "Unrecognized audio format")) attached.

(** The vector store refuses the file. *)
Definition attach_fails_env : Env :=
  scripted_env (Ok tt) (heard "what is the answer") (Ok sample_response)
    two_segments (Ok tt) (Raise (Exception "attach rejected")).

(** The user presses Ctrl+C while recording. *)
Definition interrupt_env : Env :=
  scripted_env (Raise KeyboardInterrupt) (heard "what is the answer")
    (Ok sample_response) two_segments (Ok tt) attached.

(** The microphone fails, and the user presses Ctrl+C while the apology is
    being synthesised. *)
Definition stormy_env : Env :=
  scripted_env (Raise (Exception "PortAudioError")) (heard "what is the answer")
    (Ok sample_response) (Raise KeyboardInterrupt) (Ok tt) attached.

(** A session after ingestion, before the first query. *)
Definition ready_world : world :=
  World (VStr "vs_1") VNone {["chapter.pdf"]} 0 [].

(** ** Frames *)

(** [keeps R m]: the state [m] ends in is related by [R] to the state it
    started from, however [m] ends. *)
Definition keeps (R : world -> world -> Prop) {A} (m : M A) : Prop :=
  forall w, R w (m w).2.

(** The relations the frame lemmas work with: reflexive, transitive, and
    blind to the trace and to the call counter. *)
Class Frame (R : world -> world -> Prop) : Prop := {
  frame_refl : forall w, R w w;
  frame_trans : forall w1 w2 w3, R w1 w2 -> R w2 w3 -> R w1 w3;
  frame_log : forall e w, R w (log e w);
  frame_tick : forall w, R w (tick w)
}.

Definition same_session (w w' : world) : Prop :=
  vector_store_id w' = vector_store_id w
  /\ previous_response_id w' = previous_response_id w.

Definition same_vector_store (w w' : world) : Prop :=
  vector_store_id w' = vector_store_id w.

Definition same_files (w w' : world) : Prop :=
  files w' = files w.

Definition files_kept (w w' : world) : Prop :=
  files w ⊆ files w'.

Definition no_new_files (w w' : world) : Prop :=
  files w' ⊆ files w.

(** The library calls among trace entries, in order. *)
Fixpoint library_calls (evs : list entry) : list event :=
  match evs with
  | [] => []
  | Lib ev :: rest => ev :: library_calls rest
  | _ :: rest => library_calls rest
  end.

(** Entries of document ingestion. *)
Definition is_ingestion (e : entry) : bool :=
  match e with
  | Lib (open_rb _, _) | Lib (files_create _, _) | Lib (vector_stores_create _, _)
  | Lib (vector_stores_files_create _ _, _) => true
  | _ => false
  end.

(** The queries entered, in trace order. *)
Fixpoint query_invocations (evs : list entry) : list pyval :=
  match evs with
  | [] => []
  | Enter_process_query user_input :: rest => user_input :: query_invocations rest
  | _ :: rest => query_invocations rest
  end.

(** Decoding, temporary-file creation and writing, loading, playing and
    polling succeed at every call. *)
Definition playback_never_fails (env : Env) : Prop :=
  (forall t data, exists audio_bytes, env_b64decode env t data = Ok audio_bytes)
  /\ (forall t suffix, exists path, env_tempname env t suffix = Ok path)
  /\ (forall t path, env_tmp_file_write env t path = Ok tt)
  /\ (forall t path, env_music_load env t path = Ok tt)
  /\ (forall t, env_music_play env t = Ok tt)
  /\ (forall t, exists polls, env_music_busy env t = Ok polls).

(** ** Configuration read when the module is loaded *)

Record config : Type := Config {
  BASE_URL : string;
  API_KEY : option string;
  SARVAM_KEY : option string
}.

(** The Python value of [os.getenv(key)]: the string, or [None]. *)
Definition getenv_value (value : option string) : pyval :=
  match value with
  | Some v => VStr v
  | None => VNone
  end.

(** The statements at the top of the module: the three variables are read
    from the process environment, the base URL with a default, then the
    two keys are checked, the OpenAI key first. *)
Definition load_config (environ : gmap string string) : result config :=
  let base_url := default "http://localhost:8080/v1" (environ !! "OPEN_RESPONSES_URL") in
  let api_key := environ !! "OPENAI_API_KEY" in
  let sarvam_key := environ !! "SARVAM_API_KEY" in
  if negb (truthy (getenv_value api_key)) then
    Raise (Exception "Please set the OPENAI_API_KEY environment variable.")
  else if negb (truthy (getenv_value sarvam_key)) then
    Raise (Exception "Please set the SARVAM_API_KEY environment variable.")
  else
    Ok (Config base_url api_key sarvam_key).

(** ** Locating the document and the entry point *)

(** What the script is started with: the value of [__file__], the two
    [os.path] functions it applies to it, and how [pygame.mixer.init()]
    ends when the demo object is built. *)
Record Host : Type := {
  host_file : string;
  host_dirname : string -> string;
  host_join : string -> string -> string;
  host_mixer_init : result unit
}.

Section Startup.

Variable host : Host.
Variable env : Env.

(** The three places [get_document_path] looks in, in its order. *)
Definition python_dir_path (filename : string) : string :=
  host_join host (host_dirname host (host_file host)) filename.

Definition parent_dir_path (filename : string) : string :=
  host_join host (host_dirname host (host_dirname host (host_file host))) filename.

Definition not_found_message (filename : string) : string :=
  "Could not find " +:+ filename +:+
  ". Please ensure the file exists in the current directory, python directory, or parent directory.".

Definition document_candidates (filename : string) : list string :=
  [filename; python_dir_path filename; parent_dir_path filename].

(** [get_document_path(filename="chapter.pdf")]; [FileNotFoundError] is an
    [Exception]. *)
Definition get_document_path (filename : string) : M string :=
  here <- os_path_exists filename ;;
  if here then ret filename
  else
    in_python_dir <- os_path_exists (python_dir_path filename) ;;
    if in_python_dir then ret (python_dir_path filename)
    else
      in_parent_dir <- os_path_exists (parent_dir_path filename) ;;
      if in_parent_dir then ret (parent_dir_path filename)
      else lift (Raise (Exception (not_found_message filename))).

(** The part of the [try] block of [main] that precedes the loop. *)
Definition startup : M pyval :=
  document_file <- get_document_path "chapter.pdf" ;;
  setup_rag_system env document_file "voice-demo-docs".

(** The [try] block of [main], the loop run for at most [fuel] passes. *)
Definition main_try (fuel : nat) (w : world) : option (result unit) * world :=
  match startup w with
  | (Ok _, w1) => conversation_loop env fuel w1
  | (Raise e, w1) => (Some (Raise e), w1)
  end.

(** [main()] on a file system [existing].  [VoiceRAGDemo()] is built before
    the [try], so a failing mixer initialisation leaves [main] as it is
    raised.  Both [except] clauses of [main] only print and end the
    function (the first by [return], the second by reaching its end), and
    the [finally] clause only prints. *)
Definition main (fuel : nat) (existing : gset string) : option (result unit) * world :=
  match host_mixer_init host with
  | Raise e => (Some (Raise e), init_world existing)
  | Ok _ =>
      match main_try fuel (init_world existing) with
      | (Some (Raise (Exception _)), w) => (Some (Ok tt), w)
      | (r, w) => (r, w)
      end
  end.

End Startup.

(** [posixpath.dirname] and [posixpath.join] for two components, used for
    the closed examples. *)
(** The character [/] has code 47. *)
Definition is_slash (c : Ascii.ascii) : bool := Ascii.eqb c (Ascii.ascii_of_nat 47).

Fixpoint has_slash (s : string) : bool :=
  match s with
  | EmptyString => false
  | String c rest => is_slash c || has_slash rest
  end.

Fixpoint upto_last_slash (s : string) : string :=
  match s with
  | EmptyString => EmptyString
  | String c rest =>
      if has_slash rest then String c (upto_last_slash rest)
      else if is_slash c then String c EmptyString
      else EmptyString
  end.

Fixpoint all_slashes (s : string) : bool :=
  match s with
  | EmptyString => true
  | String c rest => is_slash c && all_slashes rest
  end.

Fixpoint rstrip_slashes (s : string) : string :=
  match s with
  | EmptyString => EmptyString
  | String c rest =>
      let r := rstrip_slashes rest in
      if is_slash c && String.eqb r "" then EmptyString else String c r
  end.

Definition posix_dirname (p : string) : string :=
  let head := upto_last_slash p in
  if negb (String.eqb head "") && negb (all_slashes head)
  then rstrip_slashes head
  else head.

Fixpoint ends_with_slash (s : string) : bool :=
  match s with
  | EmptyString => false
  | String c EmptyString => is_slash c
  | String _ rest => ends_with_slash rest
  end.

Definition posix_join (a b : string) : string :=
  match b with
  | String c _ =>
      if is_slash c then b
      else if String.eqb a "" || ends_with_slash a then a +:+ b
      else a +:+ "/" +:+ b
  | EmptyString =>
      if String.eqb a "" || ends_with_slash a then a else a +:+ "/"
  end.

(** The script lives in [/srv/demo/python]; the mixer starts. *)
Definition demo_host : Host := {|
  host_file := "/srv/demo/python/demo_rag_voice_simple.py";
  host_dirname := posix_dirname;
  host_join := posix_join;
  host_mixer_init := Ok tt
|}.

(** The same place on a machine without an audio device. *)
Definition headless_host : Host := {|
  host_file := "/srv/demo/python/demo_rag_voice_simple.py";
  host_dirname := posix_dirname;
  host_join := posix_join;
  host_mixer_init := Raise (Exception "No available audio device")
|}.

(** Transcription fails at every call. *)
Definition deaf_env : Env :=
  scripted_env (Ok tt) (Raise (Exception "Service unavailable")) (Ok sample_response)
    two_segments (Ok tt) attached.

(** Synthesis fails at every call. *)
Definition mute_env : Env :=
  scripted_env (Ok tt) (heard "what is the answer") (Ok sample_response)
    (Raise (Exception "Quota exceeded")) (Ok tt) attached.

(** Synthesis answers with a single payload instead of a list. *)
Definition single_payload_env : Env :=
  scripted_env (Ok tt) (heard "what is the answer") (Ok sample_response)
    (Ok (VObj [("audio", VStr "UklGRg==")])) (Ok tt) attached.

(** The response has an identifier but its first content element has no
    text. *)
Definition textless_env : Env :=
  scripted_env (Ok tt) (heard "what is the answer")
    (Ok (VObj [("id", VStr "resp_9");
               ("output", VList [VObj [("content", VList [VObj []])]])]))
    two_segments (Ok tt) attached.

(** The response has no output. *)
Definition empty_output_env : Env :=
  scripted_env (Ok tt) (heard "what is the answer")
    (Ok (VObj [("id", VStr "resp_2"); ("output", VList [])]))
    two_segments (Ok tt) attached.

(** The disk is full: the recorded samples cannot be written. *)
Definition disk_full_env : Env := {|
  env_sd_rec := env_sd_rec calm_env;
  env_sd_wait := env_sd_wait calm_env;
  env_tempname := env_tempname calm_env;
  env_wavfile_write := fun _ _ => Raise (Exception "No space left on device");
  env_tmp_file_write := env_tmp_file_write calm_env;
  env_b64decode := env_b64decode calm_env;
  env_save := env_save calm_env;
  env_transcribe := env_transcribe calm_env;
  env_convert := env_convert calm_env;
  env_music_load := env_music_load calm_env;
  env_music_play := env_music_play calm_env;
  env_music_busy := env_music_busy calm_env;
  env_files_create := env_files_create calm_env;
  env_vector_stores_create := env_vector_stores_create calm_env;
  env_vector_stores_files_create := env_vector_stores_files_create calm_env;
  env_responses_create := env_responses_create calm_env;
  env_str := env_str calm_env
|}.

(** A process environment with both keys. *)
Definition sample_environ : gmap string string :=
  <["OPENAI_API_KEY" := "sk-test"]> (<["SARVAM_API_KEY" := "sv-test"]> ∅).

(** * Properties *)

(** ** Stepping through computations *)

Lemma extern_run {A} (c : call) (answer : nat -> result A) (w : world) :
  extern c answer w
  = (answer (clock w), tick (log (Lib (c, outcome_of (answer (clock w)))) w)).
Proof. reflexivity. Qed.

(** ** Python values *)

(** The attribute probes agree with [attr]. *)
Lemma hasattr_attr (v : pyval) (name : string) :
  hasattr v name = match attr v name with Some _ => true | None => false end.
Proof. destruct v; reflexivity. Qed.

Lemma getattr_attr (v a : pyval) (name : string) :
  attr v name = Some a -> getattr v name = Ok a /\ attr_or_none v name = a.
Proof.
  destruct v; simpl; try discriminate. intros ->. split; reflexivity.
Qed.

Lemma getattr_not_interrupted (v : pyval) (name : string) :
  getattr v name <> Raise KeyboardInterrupt.
Proof.
  destruct v; simpl; try discriminate. destruct (assoc name attrs); discriminate.
Qed.

Lemma item0_not_interrupted (v : pyval) : item0 v <> Raise KeyboardInterrupt.
Proof. destruct v as [| | | |[|x l]|]; discriminate. Qed.

Lemma len_not_interrupted (v : pyval) : len v <> Raise KeyboardInterrupt.
Proof. destruct v; discriminate. Qed.

(** ** Query processor *)

Section QueryProcessor.

Context (env : Env).

(** The guard at the top of [process_query]. *)
Lemma process_query_guard (user_input : pyval) (w : world) :
  truthy (vector_store_id w) = false ->
  process_query env user_input w
  = (Ok (VStr "RAG system not initialized. Please upload a document first."),
     log (Enter_process_query user_input) w).
Proof.
  intros Hguard.
  unfold process_query, bind, enter, modify, get_world, ret. simpl.
  now rewrite Hguard.
Qed.

(** C2: with no vector store set, [process_query] answers with the fixed
    message and makes no library call: the state differs from the one it
    was called in by the entry marker only. *)
Theorem process_query_uninitialized (user_input : pyval) (w : world) :
  vector_store_id w = VNone ->
  process_query env user_input w
  = (Ok (VStr "RAG system not initialized. Please upload a document first."),
     log (Enter_process_query user_input) w)
  /\ clock (process_query env user_input w).2 = clock w
  /\ Forall (fun e => is_lib e = false)
            (drop (length (trace w)) (trace (process_query env user_input w).2)).
Proof.
  intros Hnone.
  rewrite (process_query_guard user_input w) by now rewrite Hnone.
  split; [reflexivity|]. split; [reflexivity|].
  simpl. rewrite drop_app_length. repeat constructor.
Qed.

Lemma extract_text_not_interrupted (response : pyval) :
  extract_text env response <> Raise KeyboardInterrupt.
Proof.
  unfold extract_text, and_then.
  repeat match goal with
         | |- (if ?c then _ else _) <> _ => destruct c
         | |- match ?r with Ok _ => _ | Raise _ => _ end <> _ =>
             let E := fresh "E" in destruct r as [?|[|?]] eqn:E
         | E : getattr _ _ = Raise KeyboardInterrupt |- _ =>
             now apply getattr_not_interrupted in E
         | E : item0 _ = Raise KeyboardInterrupt |- _ =>
             now apply item0_not_interrupted in E
         | |- getattr _ _ <> _ => apply getattr_not_interrupted
         | |- _ => discriminate
         end.
Qed.

(** The extraction of the source and the order the specification words
    describe give the same answer on every response with a non-empty
    output. *)
Lemma extract_text_by_shape (response output : pyval) :
  attr response "output" = Some output ->
  truthy output = true ->
  extract_text env response = answer_by_shape env output.
Proof.
  intros Hout Htruthy. unfold extract_text.
  rewrite hasattr_attr, Hout.
  destruct (getattr_attr _ _ _ Hout) as [-> ->]. rewrite Htruthy. simpl.
  destruct output as [| | | |[|first rest]|]; try reflexivity.
  simpl. rewrite hasattr_attr.
  destruct (attr first "content") as [content|] eqn:Hc; [|reflexivity].
  destruct (getattr_attr _ _ _ Hc) as [-> ->].
  destruct (truthy content) eqn:Ht; [|reflexivity]. simpl.
  destruct content as [| | | |[|content0 crest]|]; simpl in *;
    try discriminate; try reflexivity.
  destruct (assoc "text" attrs); reflexivity.
Qed.

(** What a query on an initialised session does, call by call. *)
Lemma process_query_run (user_input : pyval) (w : world) :
  truthy (vector_store_id w) = true ->
  let call := responses_create MODEL_NAME (vector_store_id w) user_input
                (previous_response_id w) in
  let answer := env_responses_create env (clock w) MODEL_NAME (vector_store_id w)
                  user_input (previous_response_id w) in
  let w1 := tick (log (Lib (call, outcome_of answer))
                    (log (Enter_process_query user_input) w)) in
  process_query env user_input w
  = match answer with
    | Ok response =>
        (reported (extract_text env response),
         if hasattr response "id"
         then set_previous_response_id (attr_or_none response "id") w1
         else w1)
    | Raise e => (reported (Raise e), w1)
    end.
Proof.
  intros Hinit. simpl.
  unfold process_query, bind, enter, modify, get_world, try_except, extern, lift, ret.
  simpl. rewrite Hinit. simpl.
  destruct (env_responses_create env (clock w) MODEL_NAME (vector_store_id w)
              user_input (previous_response_id w)) as [response|[|msg]]; simpl;
    try reflexivity.
  rewrite hasattr_attr.
  destruct (attr response "id") as [rid|] eqn:Hid.
  - destruct (getattr_attr _ _ _ Hid) as [-> ->]. simpl.
    pose proof (extract_text_not_interrupted response) as Hne.
    destruct (extract_text env response) as [v|[|msg]]; simpl; congruence.
  - simpl.
    pose proof (extract_text_not_interrupted response) as Hne.
    destruct (extract_text env response) as [v|[|msg]]; simpl; congruence.
Qed.

(** C5: on a response with a non-empty output, [process_query] returns
    the answer picked in the stated order of shapes; an attribute error
    met on the way is reported like any other failure of the query. *)
Theorem process_query_extraction_order (user_input response output : pyval) (w : world) :
  truthy (vector_store_id w) = true ->
  env_responses_create env (clock w) MODEL_NAME (vector_store_id w) user_input
    (previous_response_id w) = Ok response ->
  attr response "output" = Some output ->
  truthy output = true ->
  (process_query env user_input w).1 = reported (answer_by_shape env output).
Proof.
  intros Hinit Hanswer Hout Htruthy.
  rewrite (process_query_run user_input w Hinit). simpl. rewrite Hanswer. simpl.
  now rewrite (extract_text_by_shape response output Hout Htruthy).
Qed.

(** C7: on an initialised session, an [Exception] raised by the remote
    call or by the handling of its response does not leave
    [process_query]; the call returns the error text with the message. *)
Theorem process_query_reports_failure (user_input : pyval) (msg : string) (w : world) :
  truthy (vector_store_id w) = true ->
  (env_responses_create env (clock w) MODEL_NAME (vector_store_id w) user_input
     (previous_response_id w) = Raise (Exception msg)
   \/ exists response,
        env_responses_create env (clock w) MODEL_NAME (vector_store_id w) user_input
          (previous_response_id w) = Ok response
        /\ extract_text env response = Raise (Exception msg)) ->
  (process_query env user_input w).1 = Ok (VStr ("Error processing query: " +:+ msg)).
Proof.
  intros Hinit Hfail.
  rewrite (process_query_run user_input w Hinit). simpl.
  destruct Hfail as [-> | (response & -> & Hextract)]; simpl; [reflexivity|].
  now rewrite Hextract.
Qed.

(** C10: [process_query] never changes the vector-store identifier, and
    when the remote call raises it leaves the previous-response
    identifier as it was too. *)
Theorem process_query_session_frame (user_input : pyval) (w : world) :
  vector_store_id (process_query env user_input w).2 = vector_store_id w
  /\ forall e,
       env_responses_create env (clock w) MODEL_NAME (vector_store_id w) user_input
         (previous_response_id w) = Raise e ->
       vector_store_id (process_query env user_input w).2 = vector_store_id w
       /\ previous_response_id (process_query env user_input w).2
          = previous_response_id w.
Proof.
  destruct (truthy (vector_store_id w)) eqn:Hinit.
  - rewrite (process_query_run user_input w Hinit). simpl.
    destruct (env_responses_create env (clock w) MODEL_NAME (vector_store_id w)
                user_input (previous_response_id w)) as [response|e'] eqn:Hanswer.
    + split; [|discriminate]. simpl. now destruct (hasattr response "id").
    + split; [reflexivity|]. intros _ _. split; reflexivity.
  - rewrite (process_query_guard user_input w Hinit).
    split; [reflexivity|]. intros _ _. split; reflexivity.
Qed.

End QueryProcessor.

Lemma process_query_uninitialized_witness :
  vector_store_id (init_world ∅) = VNone
  /\ process_query calm_env (VStr "hello") (init_world ∅)
     = (Ok (VStr "RAG system not initialized. Please upload a document first."),
        log (Enter_process_query (VStr "hello")) (init_world ∅)).
Proof.
  split; [reflexivity|].
  apply (process_query_uninitialized calm_env (VStr "hello") (init_world ∅)).
  reflexivity.
Defined.

Lemma process_query_extraction_order_witness :
  truthy (vector_store_id ready_world) = true
  /\ truthy (VList [VObj [("content", VList [VObj [("text", VStr "forty-two")]])]]) = true
  /\ (process_query calm_env (VStr "what is the answer") ready_world).1
     = Ok (VStr "forty-two").
Proof.
  split; [reflexivity|]. split; [reflexivity|].
  apply (process_query_extraction_order calm_env (VStr "what is the answer")
           sample_response
           (VList [VObj [("content", VList [VObj [("text", VStr "forty-two")]])]])
           ready_world); reflexivity.
Defined.

Lemma process_query_reports_failure_witness :
  truthy (vector_store_id ready_world) = true
  /\ (process_query offline_env (VStr "what is the answer") ready_world).1
     = Ok (VStr "Error processing query: Connection error.").
Proof.
  split; [reflexivity|].
  apply (process_query_reports_failure offline_env (VStr "what is the answer")
           "Connection error." ready_world); [reflexivity|].
  left. reflexivity.
Defined.

Lemma process_query_session_frame_witness :
  vector_store_id (process_query offline_env (VStr "what is the answer") ready_world).2
  = VStr "vs_1"
  /\ previous_response_id
       (process_query offline_env (VStr "what is the answer") ready_world).2
     = VNone.
Proof.
  apply (proj2 (process_query_session_frame offline_env (VStr "what is the answer")
                  ready_world) (Exception "Connection error.")).
  reflexivity.
Defined.

(** ** What a computation adds to the trace *)

Section Tracking.

Variable P : entry -> Prop.

Lemma tracks_silent {A} (m : M A) :
  (forall w, trace (m w).2 = trace w) ->
  (forall w, (m w).1 <> Raise KeyboardInterrupt) ->
  tracks P m.
Proof.
  intros Htrace Hres w. exists []. rewrite Htrace, app_nil_r.
  split; [reflexivity|]. split; [constructor|]. intros H. now apply Hres in H.
Qed.

Lemma tracks_ret {A} (a : A) : tracks P (ret a).
Proof. apply tracks_silent; intros w; simpl; [reflexivity|discriminate]. Qed.

Lemma tracks_lift {A} (r : result A) :
  r <> Raise KeyboardInterrupt -> tracks P (lift r).
Proof. intros H. apply tracks_silent; intros w; simpl; [reflexivity|exact H]. Qed.

Lemma tracks_get_world : tracks P get_world.
Proof. apply tracks_silent; intros w; simpl; [reflexivity|discriminate]. Qed.

Lemma tracks_modify (f : world -> world) :
  (forall w, trace (f w) = trace w) -> tracks P (modify f).
Proof. intros H. apply tracks_silent; intros w; simpl; [apply H|discriminate]. Qed.

Lemma tracks_os_path_exists (path : string) : tracks P (os_path_exists path).
Proof. apply tracks_silent; intros w; simpl; [reflexivity|discriminate]. Qed.

Lemma tracks_enter (e : entry) : P e -> tracks P (enter e).
Proof.
  intros He w. exists [e]. simpl. split; [reflexivity|].
  split; [repeat constructor; exact He|discriminate].
Qed.

Lemma tracks_extern {A} (c : call) (answer : nat -> result A) :
  (forall o, P (Lib (c, o))) -> tracks P (extern c answer).
Proof.
  intros Hc w. rewrite extern_run. simpl.
  exists [Lib (c, outcome_of (answer (clock w)))].
  split; [reflexivity|]. split; [repeat constructor; apply Hc|].
  intros ->. constructor. reflexivity.
Qed.

Lemma tracks_unlink (path : string) :
  (forall o, P (Lib (os_unlink path, o))) -> tracks P (unlink path).
Proof.
  intros Hc w. unfold unlink. destruct (bool_decide (path ∈ files w)); simpl.
  - eexists [_]. split; [reflexivity|]. split; [repeat constructor; apply Hc|discriminate].
  - eexists [_]. split; [reflexivity|]. split; [repeat constructor; apply Hc|discriminate].
Qed.

Lemma tracks_open_file (path : string) :
  (forall o, P (Lib (open_rb path, o))) -> tracks P (open_file path).
Proof.
  intros Hc w. unfold open_file. destruct (bool_decide (path ∈ files w)); simpl.
  - eexists [_]. split; [reflexivity|]. split; [repeat constructor; apply Hc|discriminate].
  - eexists [_]. split; [reflexivity|]. split; [repeat constructor; apply Hc|discriminate].
Qed.

Lemma interrupted_app_l (evs1 evs2 : list entry) :
  interrupted evs1 -> interrupted (evs1 ++ evs2).
Proof. unfold interrupted. rewrite Exists_app. auto. Qed.

Lemma interrupted_app_r (evs1 evs2 : list entry) :
  interrupted evs2 -> interrupted (evs1 ++ evs2).
Proof. unfold interrupted. rewrite Exists_app. auto. Qed.

Lemma tracks_bind {A B} (m : M A) (k : A -> M B) :
  tracks P m -> (forall a, tracks P (k a)) -> tracks P (bind m k).
Proof.
  intros Hm Hk w. unfold bind.
  destruct (Hm w) as (evs1 & Ht1 & HP1 & Hi1).
  destruct (m w) as [[a|e] w1]; simpl in *.
  - destruct (Hk a w1) as (evs2 & Ht2 & HP2 & Hi2).
    exists (evs1 ++ evs2). rewrite Ht2, Ht1, app_assoc.
    split; [reflexivity|]. split; [now apply Forall_app|].
    intros H. apply interrupted_app_r. auto.
  - exists evs1. split; [exact Ht1|]. split; [exact HP1|].
    intros H. apply Hi1. congruence.
Qed.

Lemma tracks_try_except {A} (body : M A) (handler : string -> M A) :
  tracks P body -> (forall msg, tracks P (handler msg)) -> tracks P (try_except body handler).
Proof.
  intros Hm Hk w. unfold try_except.
  destruct (Hm w) as (evs1 & Ht1 & HP1 & Hi1).
  destruct (body w) as [[a|[|msg]] w1]; simpl in *.
  - exists evs1. split; [exact Ht1|]. split; [exact HP1|discriminate].
  - exists evs1. split; [exact Ht1|]. split; [exact HP1|exact Hi1].
  - destruct (Hk msg w1) as (evs2 & Ht2 & HP2 & Hi2).
    exists (evs1 ++ evs2). rewrite Ht2, Ht1, app_assoc.
    split; [reflexivity|]. split; [now apply Forall_app|].
    intros H. apply interrupted_app_r. auto.
Qed.

Lemma tracks_try_except_interrupt {A} (body on_interrupt : M A)
    (on_exception : string -> M A) :
  tracks P body -> tracks P on_interrupt -> (forall msg, tracks P (on_exception msg)) ->
  tracks P (try_except_interrupt body on_interrupt on_exception).
Proof.
  intros Hm Hi Hk w. unfold try_except_interrupt.
  destruct (Hm w) as (evs1 & Ht1 & HP1 & Hi1).
  destruct (body w) as [[a|[|msg]] w1]; simpl in *.
  - exists evs1. split; [exact Ht1|]. split; [exact HP1|discriminate].
  - destruct (Hi w1) as (evs2 & Ht2 & HP2 & Hi2).
    exists (evs1 ++ evs2). rewrite Ht2, Ht1, app_assoc.
    split; [reflexivity|]. split; [now apply Forall_app|].
    intros _. apply interrupted_app_l. auto.
  - destruct (Hk msg w1) as (evs2 & Ht2 & HP2 & Hi2).
    exists (evs1 ++ evs2). rewrite Ht2, Ht1, app_assoc.
    split; [reflexivity|]. split; [now apply Forall_app|].
    intros H. apply interrupted_app_r. auto.
Qed.

Lemma tracks_try_finally {A} (body : M A) (cleanup : M unit) :
  tracks P body -> tracks P cleanup -> tracks P (try_finally body cleanup).
Proof.
  intros Hm Hc w. unfold try_finally.
  destruct (Hm w) as (evs1 & Ht1 & HP1 & Hi1).
  destruct (body w) as [r w1]; simpl in *.
  destruct (Hc w1) as (evs2 & Ht2 & HP2 & Hi2).
  destruct (cleanup w1) as [[u|e] w2]; simpl in *.
  - exists (evs1 ++ evs2). rewrite Ht2, Ht1, app_assoc.
    split; [reflexivity|]. split; [now apply Forall_app|].
    intros H. apply interrupted_app_l. auto.
  - exists (evs1 ++ evs2). rewrite Ht2, Ht1, app_assoc.
    split; [reflexivity|]. split; [now apply Forall_app|].
    intros H. apply interrupted_app_r. apply Hi2. congruence.
Qed.

End Tracking.

Lemma tracks_weaken (P Q : entry -> Prop) {A} (m : M A) :
  (forall e, P e -> Q e) -> tracks P m -> tracks Q m.
Proof.
  intros HPQ Hm w. destruct (Hm w) as (evs & Ht & HP & Hi).
  exists evs. split; [exact Ht|]. split; [|exact Hi].
  eapply Forall_impl; eauto.
Qed.

Create HintDb tracks.

Ltac track_step :=
  first
    [ assumption
    | solve [auto 1 with tracks nocore]
    | apply tracks_ret
    | apply tracks_get_world
    | apply tracks_os_path_exists
    | apply tracks_enter
    | apply tracks_extern; intros ?
    | apply tracks_unlink; intros ?
    | apply tracks_open_file; intros ?
    | apply tracks_modify; intros ?; reflexivity
    | apply tracks_lift
    | apply tracks_try_finally
    | apply tracks_try_except; [|intros ?]
    | apply tracks_try_except_interrupt; [| |intros ?]
    | apply tracks_bind; [|intros ?]
    | match goal with
      | |- tracks _ (if ?c then _ else _) => destruct c
      end ].

Ltac track := repeat track_step; try reflexivity; try exact I.

(** ** Voice capture and transcription *)

Section Capture.

Context (env : Env).

Lemma record_audio_tracks (duration sample_rate : Z) :
  tracks (fun e => is_capture_or_transcribe e = true)
         (record_audio env duration sample_rate).
Proof. unfold record_audio, named_temporary_file. track. Qed.

Lemma speech_to_text_tracks (audio_file lang_code : string) :
  tracks (fun e => is_capture_or_transcribe e = true)
         (speech_to_text env audio_file lang_code).
Proof.
  unfold speech_to_text. track. apply getattr_not_interrupted.
Qed.

Lemma cleanup_removes (audio_file : string) (w : world) :
  exists w',
    bind (os_path_exists audio_file)
         (fun present => if present then unlink audio_file else ret tt) w
    = (Ok tt, w')
    /\ audio_file ∉ files w'.
Proof.
  unfold bind, os_path_exists.
  destruct (bool_decide (audio_file ∈ files w)) eqn:E.
  - unfold unlink. rewrite E.
    eexists; split; [reflexivity|]. simpl.
    apply not_elem_of_difference. right. now apply elem_of_singleton.
  - eexists; split; [reflexivity|]. now apply bool_decide_eq_false in E.
Qed.

(** C4: however [speech_to_text] ends (transcript returned, error text
    returned after a failed transcription, interruption passed on), the
    input file does not exist afterwards. *)
Theorem speech_to_text_deletes_input (audio_file lang_code : string) (w : world) :
  audio_file ∉ files (speech_to_text env audio_file lang_code w).2.
Proof.
  unfold speech_to_text, try_finally.
  destruct (try_except _ _ w) as [r w1].
  destruct (cleanup_removes audio_file w1) as (w2 & -> & Hgone).
  exact Hgone.
Qed.

End Capture.

(** ** Text-to-speech *)

Ltac is_env_answer x :=
  lazymatch x with
  | env_sd_rec _ _ => idtac
  | env_sd_wait _ _ => idtac
  | env_tempname _ _ _ => idtac
  | env_wavfile_write _ _ _ => idtac
  | env_tmp_file_write _ _ _ => idtac
  | env_b64decode _ _ _ => idtac
  | env_save _ _ _ _ => idtac
  | env_transcribe _ _ _ _ => idtac
  | env_convert _ _ _ _ _ => idtac
  | env_music_load _ _ _ => idtac
  | env_music_play _ _ => idtac
  | env_music_busy _ _ => idtac
  | env_files_create _ _ _ => idtac
  | env_vector_stores_create _ _ _ => idtac
  | env_vector_stores_files_create _ _ _ _ => idtac
  | env_responses_create _ _ _ _ _ _ => idtac
  | bool_decide _ => idtac
  | getattr _ _ => idtac
  end.

(** Case analysis on the next answer of the environment. *)
Ltac next_answer :=
  match goal with
  | |- context [match ?x with Ok _ => _ | Raise _ => _ end] =>
      is_env_answer x; let E := fresh "Hans" in destruct x as [?|[|?]] eqn:E
  | |- context [if ?x then _ else _] =>
      is_env_answer x; let E := fresh "Hex" in destruct x eqn:E
  end.

Ltac all_answers := simpl; repeat (next_answer; simpl).

Ltac find_interrupt :=
  unfold interrupted;
  repeat first [ apply Exists_cons_hd; reflexivity | apply Exists_cons_tl ].

Ltac segment_leaf :=
  rewrite <- ?app_assoc; simpl;
  eexists; split; [reflexivity|];
  split; [repeat constructor|];
  split; [reflexivity|];
  first [ left; reflexivity | right; split; [reflexivity|find_interrupt] ].

Section Playback.

Context (env : Env).

(** One segment through the base64 path: the entry marker, then library
    calls only; playback that started is waited for; the call returns
    unless a library call was interrupted. *)
Lemma play_base64_audio_run (base64_audio : pyval) (segment_index : nat) (w : world) :
  exists evs,
    trace (_play_base64_audio env base64_audio segment_index w).2
    = trace w ++ Enter_play_base64_audio base64_audio segment_index :: evs
    /\ Forall (fun e => is_lib e = true) evs
    /\ waits_for_playback false evs = true
    /\ ((_play_base64_audio env base64_audio segment_index w).1 = Ok tt
        \/ ((_play_base64_audio env base64_audio segment_index w).1
            = Raise KeyboardInterrupt
            /\ interrupted evs)).
Proof.
  unfold _play_base64_audio, named_temporary_file, wait_for_playback, bind, enter,
    modify, try_except, extern, unlink, ret.
  all_answers; segment_leaf.
Qed.

(** The same for the save-and-play path. *)
Lemma play_audio_with_save_run (audio_response : pyval) (segment_index : nat) (w : world) :
  exists evs,
    trace (_play_audio_with_save env audio_response segment_index w).2
    = trace w ++ Enter_play_audio_with_save audio_response segment_index :: evs
    /\ Forall (fun e => is_lib e = true) evs
    /\ waits_for_playback false evs = true
    /\ ((_play_audio_with_save env audio_response segment_index w).1 = Ok tt
        \/ ((_play_audio_with_save env audio_response segment_index w).1
            = Raise KeyboardInterrupt
            /\ interrupted evs)).
Proof.
  unfold _play_audio_with_save, named_temporary_file, wait_for_playback, bind, enter,
    modify, try_except, extern, unlink, ret.
  all_answers; segment_leaf.
Qed.

(** When every step of a segment succeeds, its temporary file is removed. *)
Lemma play_base64_audio_success_removes_file
    (base64_audio : pyval) (segment_index : nat) (w : world)
    (audio_bytes path : string) (polls : nat) :
  let suffix := "_segment_" +:+ pretty segment_index +:+ ".wav" in
  env_b64decode env (clock w) base64_audio = Ok audio_bytes ->
  env_tempname env (S (clock w)) suffix = Ok path ->
  env_tmp_file_write env (S (S (clock w))) path = Ok tt ->
  env_music_load env (S (S (S (clock w)))) path = Ok tt ->
  env_music_play env (S (S (S (S (clock w))))) = Ok tt ->
  env_music_busy env (S (S (S (S (S (clock w)))))) = Ok polls ->
  (_play_base64_audio env base64_audio segment_index w).1 = Ok tt
  /\ path ∉ files (_play_base64_audio env base64_audio segment_index w).2.
Proof.
  intros suffix Hdecode Hname Hwrite Hload Hplay Hbusy.
  unfold _play_base64_audio, named_temporary_file, wait_for_playback, bind, enter,
    modify, try_except, extern, unlink, ret. simpl.
  rewrite Hdecode. simpl. fold suffix. rewrite Hname. simpl.
  rewrite Hwrite. simpl. rewrite Hload. simpl. rewrite Hplay. simpl.
  rewrite Hbusy. simpl.
  rewrite bool_decide_eq_true_2 by (apply elem_of_union_l; now apply elem_of_singleton).
  simpl. split; [reflexivity|].
  apply not_elem_of_difference. right. now apply elem_of_singleton.
Qed.

(** When the mixer refuses to load the file, the segment's handler
    swallows the error and the file written for the segment stays. *)
Lemma play_base64_audio_failure_keeps_file
    (base64_audio : pyval) (segment_index : nat) (w : world)
    (audio_bytes path msg : string) :
  let suffix := "_segment_" +:+ pretty segment_index +:+ ".wav" in
  env_b64decode env (clock w) base64_audio = Ok audio_bytes ->
  env_tempname env (S (clock w)) suffix = Ok path ->
  env_tmp_file_write env (S (S (clock w))) path = Ok tt ->
  env_music_load env (S (S (S (clock w)))) path = Raise (Exception msg) ->
  (_play_base64_audio env base64_audio segment_index w).1 = Ok tt
  /\ path ∈ files (_play_base64_audio env base64_audio segment_index w).2.
Proof.
  intros suffix Hdecode Hname Hwrite Hload.
  unfold _play_base64_audio, named_temporary_file, wait_for_playback, bind, enter,
    modify, try_except, extern, unlink, ret. simpl.
  rewrite Hdecode. simpl. fold suffix. rewrite Hname. simpl.
  rewrite Hwrite. simpl. rewrite Hload. simpl.
  split; [reflexivity|]. apply elem_of_union_l. now apply elem_of_singleton.
Qed.

Lemma waits_for_playback_app (playing : bool) (evs1 evs2 : list entry) :
  waits_for_playback playing evs1 = true ->
  waits_for_playback false evs2 = true ->
  waits_for_playback playing (evs1 ++ evs2) = true.
Proof.
  revert playing. induction evs1 as [|e evs1 IH]; intros playing H1 H2; simpl in *.
  - destruct playing; [discriminate|exact H2].
  - destruct playing.
    + apply andb_true_iff in H1 as [Hp H1]. rewrite Hp. simpl. now apply IH.
    + now apply IH.
Qed.

Lemma playback_invocations_app (evs1 evs2 : list entry) :
  playback_invocations (evs1 ++ evs2)
  = playback_invocations evs1 ++ playback_invocations evs2.
Proof.
  induction evs1 as [|e evs1 IH]; simpl; [reflexivity|].
  destruct e; simpl; now rewrite IH.
Qed.

Lemma playback_invocations_lib (evs : list entry) :
  Forall (fun e => is_lib e = true) evs -> playback_invocations evs = [].
Proof.
  induction 1 as [|e evs He _ IH]; simpl; [reflexivity|].
  destruct e; simpl in *; try discriminate. exact IH.
Qed.

Lemma speech_invocations_none (evs : list entry) :
  Forall (fun e => is_speech_entry e = false) evs -> speech_invocations evs = [].
Proof.
  induction 1 as [|e evs He _ IH]; simpl; [reflexivity|].
  destruct e; simpl in *; try discriminate; exact IH.
Qed.

Lemma lib_not_speech (evs : list entry) :
  Forall (fun e => is_lib e = true) evs ->
  Forall (fun e => is_speech_entry e = false) evs.
Proof.
  intros H. eapply Forall_impl; [exact H|].
  intros e. destruct e; simpl; congruence.
Qed.

(** The [for] loop over the segments, from index [i]: every segment is
    entered once, in order, unless an interruption cuts the loop short. *)
Lemma play_segments_run (audio_segments : list pyval) (i : nat) (w : world) :
  exists evs,
    trace (play_segments env audio_segments i w).2 = trace w ++ evs
    /\ Forall (fun e => is_speech_entry e = false) evs
    /\ waits_for_playback false evs = true
    /\ (((play_segments env audio_segments i w).1 = Ok tt
         /\ playback_invocations evs = enumerate_from i audio_segments)
        \/ ((play_segments env audio_segments i w).1 = Raise KeyboardInterrupt
            /\ interrupted evs
            /\ playback_invocations evs `prefix_of` enumerate_from i audio_segments)).
Proof.
  revert i w. induction audio_segments as [|a rest IH]; intros i w.
  - exists []. simpl. rewrite app_nil_r. repeat split; auto.
  - simpl. unfold bind.
    destruct (play_base64_audio_run a i w) as (evs1 & Ht1 & Hlib1 & Hw1 & Hr1).
    destruct (_play_base64_audio env a i w) as [r1 w1]. simpl in *.
    destruct Hr1 as [-> | [-> Hint]].
    + destruct (IH (S i) w1) as (evs2 & Ht2 & Hs2 & Hw2 & Hr2).
      exists ((Enter_play_base64_audio a i :: evs1) ++ evs2).
      rewrite Ht2, Ht1, <- app_assoc. split; [reflexivity|].
      split.
      { apply Forall_app. split; [|exact Hs2].
        constructor; [reflexivity|]. now apply lib_not_speech. }
      split.
      { apply waits_for_playback_app; [exact Hw1|exact Hw2]. }
      rewrite playback_invocations_app. simpl.
      rewrite (playback_invocations_lib evs1 Hlib1). simpl.
      destruct Hr2 as [[Hok Hinv] | (Hki & Hint & Hpre)].
      * left. split; [exact Hok|]. now rewrite Hinv.
      * right. split; [exact Hki|]. split.
        { apply Exists_cons_tl, interrupted_app_r. exact Hint. }
        now apply prefix_cons.
    + exists (Enter_play_base64_audio a i :: evs1).
      split; [exact Ht1|]. split.
      { constructor; [reflexivity|]. now apply lib_not_speech. }
      split; [exact Hw1|]. right. split; [reflexivity|]. split.
      { apply Exists_cons_tl. exact Hint. }
      simpl. rewrite (playback_invocations_lib evs1 Hlib1).
      apply prefix_cons, prefix_nil.
Qed.

Lemma play_segments_tracks (audio_segments : list pyval) (i : nat) :
  tracks (fun e => is_speech_entry e = false) (play_segments env audio_segments i).
Proof.
  intros w. destruct (play_segments_run audio_segments i w) as (evs & Ht & Hs & _ & Hr).
  exists evs. split; [exact Ht|]. split; [exact Hs|].
  intros Hki. destruct Hr as [[Hok _] | (_ & Hint & _)]; [congruence|exact Hint].
Qed.

Lemma play_audio_with_save_tracks (audio_response : pyval) (i : nat) :
  tracks (fun e => is_speech_entry e = false) (_play_audio_with_save env audio_response i).
Proof.
  intros w. destruct (play_audio_with_save_run audio_response i w)
    as (evs & Ht & Hlib & _ & Hr).
  exists (Enter_play_audio_with_save audio_response i :: evs). split; [exact Ht|].
  split; [constructor; [reflexivity|now apply lib_not_speech]|].
  intros Hki. apply Exists_cons_tl.
  destruct Hr as [Hok | [_ Hint]]; [congruence|exact Hint].
Qed.

#[local] Hint Resolve play_segments_tracks play_audio_with_save_tracks : tracks.

Lemma synthesize_and_play_tracks (text : pyval) (speaker lang_code : string) :
  tracks (fun e => is_speech_entry e = false)
         (synthesize_and_play env text speaker lang_code).
Proof.
  unfold synthesize_and_play.
  track; [apply len_not_interrupted | apply getattr_not_interrupted].
Qed.

(** The speech-synthesis call as a whole: its entry marker, then entries
    none of which is a synthesis entry; no [Exception] leaves it. *)
Lemma text_to_speech_run (text : pyval) (speaker lang_code : string) (w : world) :
  exists evs,
    trace (text_to_speech env text speaker lang_code w).2
    = trace w ++ Enter_text_to_speech text :: evs
    /\ Forall (fun e => is_speech_entry e = false) evs
    /\ ((text_to_speech env text speaker lang_code w).1 = Ok tt
        \/ ((text_to_speech env text speaker lang_code w).1 = Raise KeyboardInterrupt
            /\ interrupted evs)).
Proof.
  change (text_to_speech env text speaker lang_code w)
    with (try_except (synthesize_and_play env text speaker lang_code)
            (fun _ => ret tt) (log (Enter_text_to_speech text) w)).
  destruct (synthesize_and_play_tracks text speaker lang_code
              (log (Enter_text_to_speech text) w)) as (evs & Ht & Hs & Hint).
  unfold try_except.
  destruct (synthesize_and_play env text speaker lang_code
              (log (Enter_text_to_speech text) w)) as [[[]|[|msg]] w1];
    simpl in *; exists evs; rewrite Ht, <- app_assoc;
    (split; [reflexivity|]); (split; [exact Hs|]); auto.
Qed.

(** C6: when synthesis answers with a list of N encoded segments,
    [text_to_speech] enters segment playback for segment 0, 1, ..., N-1
    in this order and once each, whatever fails inside a segment; every
    playback that started is polled to its end before anything else
    happens.  Only the interruption signal, raised by one of the library
    calls, cuts the sequence short. *)
Theorem text_to_speech_plays_segments_in_order
    (text response : pyval) (speaker lang_code : string) (n : Z)
    (audio_segments : list pyval) (w : world) :
  len text = Ok n ->
  env_convert env (clock w) text speaker lang_code = Ok response ->
  attr response "audios" = Some (VList audio_segments) ->
  exists evs,
    trace (text_to_speech env text speaker lang_code w).2
    = trace w ++ Enter_text_to_speech text
              :: Lib (sarvam_convert text speaker lang_code, Returned) :: evs
    /\ waits_for_playback false evs = true
    /\ (((text_to_speech env text speaker lang_code w).1 = Ok tt
         /\ playback_invocations evs = enumerate_from 0 audio_segments
         /\ length (playback_invocations evs) = length audio_segments)
        \/ ((text_to_speech env text speaker lang_code w).1 = Raise KeyboardInterrupt
            /\ interrupted evs
            /\ playback_invocations evs `prefix_of` enumerate_from 0 audio_segments)).
Proof.
  intros Hlen Hconvert Haudios.
  change (text_to_speech env text speaker lang_code w)
    with (try_except (synthesize_and_play env text speaker lang_code)
            (fun _ => ret tt) (log (Enter_text_to_speech text) w)).
  set (w0 := log (Enter_text_to_speech text) w).
  set (w1 := tick (log (Lib (sarvam_convert text speaker lang_code, Returned)) w0)).
  assert (Hbody : synthesize_and_play env text speaker lang_code w0
                  = play_segments env audio_segments 0 w1).
  { unfold synthesize_and_play, bind, lift, extern. rewrite Hlen. simpl.
    rewrite Hconvert. simpl. rewrite hasattr_attr, Haudios.
    destruct (getattr_attr _ _ _ Haudios) as [-> ->]. reflexivity. }
  unfold try_except. rewrite Hbody.
  destruct (play_segments_run audio_segments 0 w1) as (evs & Ht & _ & Hw & Hr).
  exists evs.
  assert (Htrace : trace (play_segments env audio_segments 0 w1).2
                   = trace w ++ Enter_text_to_speech text
                       :: Lib (sarvam_convert text speaker lang_code, Returned) :: evs).
  { rewrite Ht. unfold w1, w0. simpl. now rewrite <- !app_assoc. }
  destruct (play_segments env audio_segments 0 w1) as [r w2]. simpl in *.
  destruct Hr as [[-> Hinv] | (-> & Hint & Hpre)]; simpl.
  - split; [exact Htrace|]. split; [exact Hw|]. left.
    split; [reflexivity|]. split; [exact Hinv|]. rewrite Hinv.
    clear. generalize 0. induction audio_segments; intros i; simpl; auto.
  - split; [exact Htrace|]. split; [exact Hw|]. right. auto.
Qed.

End Playback.

(** C3, at a segment the mixer cannot load: the call returns normally, and
    the file written for the segment, which did not exist before, still
    exists afterwards; the last call made is the failed load, no
    [os.unlink] follows. *)
Theorem play_base64_audio_leaks_temp_file :
  (_play_base64_audio bad_audio_env (VStr "UklGRg==") 0 (init_world ∅)).1 = Ok tt
  /\ ("/tmp/tmp1_segment_0.wav" ∉ files (init_world ∅))
  /\ ("/tmp/tmp1_segment_0.wav"
        ∈ files (_play_base64_audio bad_audio_env (VStr "UklGRg==") 0 (init_world ∅)).2)
  /\ trace (_play_base64_audio bad_audio_env (VStr "UklGRg==") 0 (init_world ∅)).2
     = [Enter_play_base64_audio (VStr "UklGRg==") 0;
        Lib (base64_b64decode (VStr "UklGRg=="), Returned);
        Lib (NamedTemporaryFile "_segment_0.wav", Returned);
        Lib (tmp_file_write "/tmp/tmp1_segment_0.wav", Returned);
        Lib (music_load "/tmp/tmp1_segment_0.wav",
             Raised (Exception "Unrecognized audio format"))].
Proof.
  split; [reflexivity|]. split; [apply not_elem_of_empty|].
  split; [|reflexivity].
  apply (play_base64_audio_failure_keeps_file bad_audio_env (VStr "UklGRg==") 0
           (init_world ∅) "RIFF" "/tmp/tmp1_segment_0.wav" "Unrecognized audio format");
    reflexivity.
Qed.

Lemma text_to_speech_plays_segments_in_order_witness :
  len (VStr "forty-two") = Ok 9%Z
  /\ exists evs,
       trace (text_to_speech calm_env (VStr "forty-two") "anushka" "hi-IN" ready_world).2
       = trace ready_world ++ Enter_text_to_speech (VStr "forty-two")
           :: Lib (sarvam_convert (VStr "forty-two") "anushka" "hi-IN", Returned) :: evs
       /\ waits_for_playback false evs = true
       /\ (((text_to_speech calm_env (VStr "forty-two") "anushka" "hi-IN" ready_world).1
            = Ok tt
            /\ playback_invocations evs
               = enumerate_from 0 [VStr "UklGRg=="; VStr "UklGRg=="]
            /\ length (playback_invocations evs) = 2)
           \/ ((text_to_speech calm_env (VStr "forty-two") "anushka" "hi-IN" ready_world).1
               = Raise KeyboardInterrupt
               /\ interrupted evs
               /\ playback_invocations evs
                  `prefix_of` enumerate_from 0 [VStr "UklGRg=="; VStr "UklGRg=="])).
Proof.
  split; [reflexivity|].
  apply (text_to_speech_plays_segments_in_order calm_env (VStr "forty-two")
           (VObj [("audios", VList [VStr "UklGRg=="; VStr "UklGRg=="])])
           "anushka" "hi-IN" 9%Z [VStr "UklGRg=="; VStr "UklGRg=="] ready_world);
    reflexivity.
Defined.

(** Both segments are entered although the first one fails. *)
Example failed_segment_does_not_stop_playback :
  (text_to_speech bad_audio_env (VStr "forty-two") "anushka" "hi-IN" ready_world).1 = Ok tt
  /\ playback_invocations
       (trace (text_to_speech bad_audio_env (VStr "forty-two") "anushka" "hi-IN"
                 ready_world).2)
     = [(0, VStr "UklGRg=="); (1, VStr "UklGRg==")].
Proof. split; reflexivity. Qed.

(** ** Document ingestion *)

Section Ingestion.

Context (env : Env).

(** C8: [setup_rag_system] stores and returns the vector-store identifier
    only at the end of a run in which the upload, the creation of the
    store and the attachment all returned, in this order; on any failure
    the session keeps the identifier it had.  When the attachment raises
    after the store was created, that exception is the one the caller
    gets, and the failed attachment is the last call made: no call
    follows that would remove the store. *)
Theorem setup_rag_system_order (file_path vector_store_name : string) (w : world) :
  (forall v w',
      setup_rag_system env file_path vector_store_name w = (Ok v, w') ->
      vector_store_id w' = v
      /\ exists file_id,
           trace w' = trace w ++
             [Lib (open_rb file_path, Returned);
              Lib (files_create file_path, Returned);
              Lib (vector_stores_create vector_store_name, Returned);
              Lib (vector_stores_files_create v file_id, Returned)])
  /\ (forall e w',
        setup_rag_system env file_path vector_store_name w = (Raise e, w') ->
        vector_store_id w' = vector_store_id w)
  /\ (forall upload store file_id v e,
        file_path ∈ files w ->
        env_files_create env (S (clock w)) file_path = Ok upload ->
        attr upload "id" = Some file_id ->
        env_vector_stores_create env (S (S (clock w))) vector_store_name = Ok store ->
        attr store "id" = Some v ->
        env_vector_stores_files_create env (S (S (S (clock w)))) v file_id = Raise e ->
        exists w',
          setup_rag_system env file_path vector_store_name w = (Raise e, w')
          /\ vector_store_id w' = vector_store_id w
          /\ trace w' = trace w ++
               [Lib (open_rb file_path, Returned);
                Lib (files_create file_path, Returned);
                Lib (vector_stores_create vector_store_name, Returned);
                Lib (vector_stores_files_create v file_id, Raised e)]).
Proof.
  split; [|split].
  - intros v w'.
    unfold setup_rag_system, upload_file, create_vector_store, add_file_to_vector_store,
      bind, open_file, extern, lift, modify, ret.
    all_answers; intros H; inversion H; subst; clear H; simpl.
    split; [reflexivity|]. eexists. rewrite <- !app_assoc. reflexivity.
  - intros e w'.
    unfold setup_rag_system, upload_file, create_vector_store, add_file_to_vector_store,
      bind, open_file, extern, lift, modify, ret.
    all_answers; intros H; inversion H; subst; clear H; reflexivity.
  - intros upload store file_id v e Hfile Hupload Hfid Hstore Hvid Hattach.
    destruct (getattr_attr _ _ _ Hfid) as [Hg1 _].
    destruct (getattr_attr _ _ _ Hvid) as [Hg2 _].
    unfold setup_rag_system, upload_file, create_vector_store, add_file_to_vector_store,
      bind, open_file, extern, lift, modify, ret.
    rewrite (bool_decide_eq_true_2 _ Hfile). simpl.
    rewrite Hupload. simpl. rewrite Hg1. simpl.
    rewrite Hstore. simpl. rewrite Hg2. simpl.
    rewrite Hattach. simpl.
    eexists. split; [reflexivity|]. split; [reflexivity|].
    simpl. rewrite <- !app_assoc. reflexivity.
Qed.

End Ingestion.

Lemma setup_rag_system_order_witness :
  ("chapter.pdf" ∈ files (init_world {["chapter.pdf"]}))
  /\ exists w',
       setup_rag_system attach_fails_env "chapter.pdf" "voice-demo-docs"
         (init_world {["chapter.pdf"]})
       = (Raise (Exception "attach rejected"), w')
       /\ vector_store_id w' = VNone
       /\ trace w' =
            [Lib (open_rb "chapter.pdf", Returned);
             Lib (files_create "chapter.pdf", Returned);
             Lib (vector_stores_create "voice-demo-docs", Returned);
             Lib (vector_stores_files_create (VStr "vs_1") (VStr "file_1"),
                  Raised (Exception "attach rejected"))].
Proof.
  split; [vm_compute; reflexivity|].
  apply (proj2 (proj2 (setup_rag_system_order attach_fails_env "chapter.pdf"
                         "voice-demo-docs" (init_world {["chapter.pdf"]})))
           (VObj [("id", VStr "file_1")]) (VObj [("id", VStr "vs_1")])
           (VStr "file_1") (VStr "vs_1") (Exception "attach rejected"));
    reflexivity.
Defined.

(** ** Conversation loop *)

Section Loop.

Context (env : Env).

Lemma text_to_speech_tracks (text : pyval) (speaker lang_code : string) :
  tracks (fun _ => True) (text_to_speech env text speaker lang_code).
Proof.
  intros w. destruct (text_to_speech_run env text speaker lang_code w)
    as (evs & Ht & _ & Hr).
  exists (Enter_text_to_speech text :: evs). split; [exact Ht|].
  split; [apply Forall_forall; auto|].
  intros Hki. apply Exists_cons_tl.
  destruct Hr as [Hok | [_ Hint]]; [congruence|exact Hint].
Qed.

Lemma process_query_tracks (user_input : pyval) :
  tracks (fun _ => True) (process_query env user_input).
Proof.
  unfold process_query. track;
    first [apply getattr_not_interrupted | apply extract_text_not_interrupted].
Qed.

Lemma loop_body_tracks : tracks (fun _ => True) (loop_body env).
Proof.
  unfold loop_body.
  apply tracks_bind.
  { eapply tracks_weaken; [|apply record_audio_tracks]. auto. }
  intros audio_file. apply tracks_bind.
  { eapply tracks_weaken; [|apply speech_to_text_tracks]. auto. }
  intros user_input. destruct (negb (truthy user_input)); [apply tracks_ret|].
  apply tracks_bind; [apply process_query_tracks|]. intros response.
  apply tracks_bind; [apply text_to_speech_tracks|]. intros _. apply tracks_ret.
Qed.

Lemma loop_body_returns_next (w : world) (c : loop_ctl) :
  (loop_body env w).1 = Ok c -> c = Next.
Proof.
  unfold loop_body, bind, ret.
  destruct (record_audio env 5 44100 w) as [[audio_file|e] w1]; [|discriminate].
  destruct (speech_to_text env audio_file "hi-IN" w1) as [[user_input|e] w2];
    [|discriminate].
  destruct (negb (truthy user_input)); simpl; [congruence|].
  destruct (process_query env user_input w2) as [[response|e] w3]; [|discriminate].
  destruct (text_to_speech env response "anushka" "hi-IN" w3) as [[u|e] w4];
    simpl; congruence.
Qed.

(** A handler of the loop: one synthesis call, then [ctl]. *)
Lemma speak_then (text : pyval) (ctl : loop_ctl) (w : world) :
  exists evs,
    trace ((text_to_speech env text "anushka" "hi-IN" ;;; ret ctl) w).2 = trace w ++ evs
    /\ speech_invocations evs = [text]
    /\ (((text_to_speech env text "anushka" "hi-IN" ;;; ret ctl) w).1 = Ok ctl
        \/ (((text_to_speech env text "anushka" "hi-IN" ;;; ret ctl) w).1
            = Raise KeyboardInterrupt
            /\ interrupted evs)).
Proof.
  destruct (text_to_speech_run env text "anushka" "hi-IN" w) as (evs & Ht & Hs & Hr).
  exists (Enter_text_to_speech text :: evs). unfold bind, ret.
  destruct (text_to_speech env text "anushka" "hi-IN" w) as [[u|e] w1]; simpl in *.
  - split; [exact Ht|]. split; [now rewrite (speech_invocations_none evs Hs)|].
    now left.
  - split; [exact Ht|]. split; [now rewrite (speech_invocations_none evs Hs)|].
    destruct Hr as [Hok | [Hki Hint]]; [discriminate|].
    right. split; [congruence|]. now apply Exists_cons_tl.
Qed.

(** One pass either goes on to the next, or ends the loop, and it ends
    the loop only if a library call was interrupted during the pass. *)
Lemma iteration_exit (w : world) :
  exists evs,
    trace (iteration env w).2 = trace w ++ evs
    /\ ((iteration env w).1 = Ok Next
        \/ (((iteration env w).1 = Ok Break
             \/ (iteration env w).1 = Raise KeyboardInterrupt)
            /\ interrupted evs)).
Proof.
  unfold iteration, try_except_interrupt.
  destruct (loop_body_tracks w) as (evs1 & Ht1 & _ & Hi1).
  pose proof (loop_body_returns_next w) as Hnext.
  destruct (loop_body env w) as [[c|[|msg]] w1]; simpl in *.
  - exists evs1. split; [exact Ht1|]. left. now rewrite (Hnext c).
  - destruct (speak_then (VStr "Goodbye!") Break w1) as (evs2 & Ht2 & _ & Hr2).
    exists (evs1 ++ evs2). rewrite Ht2, Ht1, app_assoc. split; [reflexivity|].
    right. split.
    + destruct Hr2 as [Hok | [Hki _]]; auto.
    + apply interrupted_app_l. auto.
  - destruct (speak_then (VStr "Sorry, I encountered an error.") Next w1)
      as (evs2 & Ht2 & _ & Hr2).
    exists (evs1 ++ evs2). rewrite Ht2, Ht1, app_assoc. split; [reflexivity|].
    destruct Hr2 as [Hok | [Hki Hint]]; [now left|].
    right. split; [now right|]. now apply interrupted_app_r.
Qed.

(** The loop is left only after an interruption. *)
Lemma conversation_loop_exit (fuel : nat) (w w' : world) (r : result unit) :
  conversation_loop env fuel w = (Some r, w') ->
  (r = Ok tt \/ r = Raise KeyboardInterrupt)
  /\ exists evs, trace w' = trace w ++ evs /\ interrupted evs.
Proof.
  revert w. induction fuel as [|fuel IH]; intros w; simpl; [discriminate|].
  destruct (iteration_exit w) as (evs1 & Ht1 & Hr1).
  destruct (iteration env w) as [[[|]|e] w1]; simpl in *.
  - intros H. destruct (IH w1 H) as (Hr & evs2 & Ht2 & Hint).
    split; [exact Hr|]. exists (evs1 ++ evs2).
    rewrite Ht2, Ht1, app_assoc. split; [reflexivity|]. now apply interrupted_app_r.
  - intros H. inversion H; subst; clear H.
    destruct Hr1 as [Hn | [_ Hint]]; [discriminate|].
    split; [now left|]. exists evs1. auto.
  - intros H. inversion H; subst; clear H.
    destruct Hr1 as [Hn | [[Hb | Hki] Hint]]; try discriminate.
    split; [right; congruence|]. exists evs1. auto.
Qed.

(** C9: a pass in which transcription returns an empty transcript ends
    right there: the state after the pass is the state transcription
    left, so the pass made capture and transcription calls only, neither
    [process_query] nor [text_to_speech] was entered, and the loop goes
    on with the next capture from that state. *)
Theorem empty_transcript_skips_query_and_speech
    (audio_file : string) (user_input : pyval) (w w1 w2 : world) :
  record_audio env 5 44100 w = (Ok audio_file, w1) ->
  speech_to_text env audio_file "hi-IN" w1 = (Ok user_input, w2) ->
  truthy user_input = false ->
  iteration env w = (Ok Next, w2)
  /\ (exists evs,
        trace w2 = trace w ++ evs
        /\ Forall (fun e => is_capture_or_transcribe e = true) evs)
  /\ forall fuel, conversation_loop env (S fuel) w = conversation_loop env fuel w2.
Proof.
  intros Hrec Hstt Hempty.
  assert (Hit : iteration env w = (Ok Next, w2)).
  { unfold iteration, try_except_interrupt, loop_body, bind.
    rewrite Hrec, Hstt, Hempty. reflexivity. }
  split; [exact Hit|]. split.
  - destruct (record_audio_tracks env 5 44100 w) as (evs1 & Ht1 & HP1 & _).
    destruct (speech_to_text_tracks env audio_file "hi-IN" w1) as (evs2 & Ht2 & HP2 & _).
    rewrite Hrec in Ht1. rewrite Hstt in Ht2. simpl in *.
    exists (evs1 ++ evs2). rewrite Ht2, Ht1, app_assoc.
    split; [reflexivity|]. now apply Forall_app.
  - intros fuel. simpl. now rewrite Hit.
Qed.

(** C1, as amended: the loop is left only after a library call raised
    [KeyboardInterrupt].  An interruption raised inside the [try] block
    of a pass is answered by exactly one synthesis call, of the farewell,
    and the loop is left.  An [Exception] raised inside the [try] block
    is answered by exactly one synthesis call, of the apology, and the
    loop goes on with the next pass unless that call was interrupted. *)
Theorem conversation_loop_exits_on_interrupt_only :
  (forall fuel w w' r,
      conversation_loop env fuel w = (Some r, w') ->
      (r = Ok tt \/ r = Raise KeyboardInterrupt)
      /\ exists evs, trace w' = trace w ++ evs /\ interrupted evs)
  /\ (forall w w1,
        loop_body env w = (Raise KeyboardInterrupt, w1) ->
        exists evs,
          trace (iteration env w).2 = trace w1 ++ evs
          /\ speech_invocations evs = [VStr "Goodbye!"]
          /\ forall fuel,
               conversation_loop env (S fuel) w = (Some (Ok tt), (iteration env w).2)
               \/ conversation_loop env (S fuel) w
                  = (Some (Raise KeyboardInterrupt), (iteration env w).2))
  /\ (forall w w1 msg,
        loop_body env w = (Raise (Exception msg), w1) ->
        exists evs,
          trace (iteration env w).2 = trace w1 ++ evs
          /\ speech_invocations evs = [VStr "Sorry, I encountered an error."]
          /\ (interrupted evs
              \/ forall fuel,
                   conversation_loop env (S fuel) w
                   = conversation_loop env fuel (iteration env w).2)).
Proof.
  split; [|split].
  - intros fuel w w' r. apply conversation_loop_exit.
  - intros w w1 Hbody.
    destruct (speak_then (VStr "Goodbye!") Break w1) as (evs & Ht & Hs & Hr).
    exists evs.
    assert (Hit : iteration env w
                  = (text_to_speech env (VStr "Goodbye!") "anushka" "hi-IN" ;;; ret Break) w1).
    { unfold iteration, try_except_interrupt. now rewrite Hbody. }
    rewrite Hit. split; [exact Ht|]. split; [exact Hs|].
    intros fuel. simpl. rewrite Hit.
    destruct ((text_to_speech env (VStr "Goodbye!") "anushka" "hi-IN" ;;; ret Break) w1)
      as [r' w']. simpl in *.
    destruct Hr as [-> | [-> _]]; auto.
  - intros w w1 msg Hbody.
    destruct (speak_then (VStr "Sorry, I encountered an error.") Next w1)
      as (evs & Ht & Hs & Hr).
    exists evs.
    assert (Hit : iteration env w
                  = (text_to_speech env (VStr "Sorry, I encountered an error.")
                       "anushka" "hi-IN" ;;; ret Next) w1).
    { unfold iteration, try_except_interrupt. now rewrite Hbody. }
    rewrite Hit. split; [exact Ht|]. split; [exact Hs|].
    destruct Hr as [Hok | [_ Hint]]; [right|now left].
    intros fuel. simpl. rewrite Hit.
    destruct ((text_to_speech env (VStr "Sorry, I encountered an error.")
                 "anushka" "hi-IN" ;;; ret Next) w1) as [r' w']. simpl in *.
    now rewrite Hok.
Qed.

End Loop.

Lemma empty_transcript_skips_query_and_speech_witness :
  truthy (VStr "") = false
  /\ iteration silent_env ready_world
     = (Ok Next,
        (speech_to_text silent_env "/tmp/tmp2.wav" "hi-IN"
           (record_audio silent_env 5 44100 ready_world).2).2).
Proof.
  split; [reflexivity|].
  apply (empty_transcript_skips_query_and_speech silent_env "/tmp/tmp2.wav" (VStr "")
           ready_world
           (record_audio silent_env 5 44100 ready_world).2
           (speech_to_text silent_env "/tmp/tmp2.wav" "hi-IN"
              (record_audio silent_env 5 44100 ready_world).2).2);
    vm_compute; reflexivity.
Defined.

Lemma conversation_loop_exits_on_interrupt_only_witness :
  loop_body interrupt_env ready_world
  = (Raise KeyboardInterrupt, (loop_body interrupt_env ready_world).2)
  /\ exists evs,
       trace (iteration interrupt_env ready_world).2
       = trace (loop_body interrupt_env ready_world).2 ++ evs
       /\ speech_invocations evs = [VStr "Goodbye!"]
       /\ forall fuel,
            conversation_loop interrupt_env (S fuel) ready_world
            = (Some (Ok tt), (iteration interrupt_env ready_world).2)
            \/ conversation_loop interrupt_env (S fuel) ready_world
               = (Some (Raise KeyboardInterrupt), (iteration interrupt_env ready_world).2).
Proof.
  split; [vm_compute; reflexivity|].
  apply (proj1 (proj2 (conversation_loop_exits_on_interrupt_only interrupt_env))
           ready_world (loop_body interrupt_env ready_world).2).
  vm_compute; reflexivity.
Defined.

(** C1 as stated fails: the microphone raises an ordinary exception inside
    a pass, the user interrupts while the apology is being synthesised, and
    the loop is left on that interruption with no farewell call made. *)
Lemma apology_interrupted_no_farewell :
  (loop_body stormy_env ready_world).1 = Raise (Exception "PortAudioError")
  /\ (conversation_loop stormy_env 1 ready_world).1 = Some (Raise KeyboardInterrupt)
  /\ speech_invocations (trace (conversation_loop stormy_env 1 ready_world).2)
     = [VStr "Sorry, I encountered an error."]
  /\ ~ In (VStr "Goodbye!")
         (speech_invocations (trace (conversation_loop stormy_env 1 ready_world).2)).
Proof.
  split; [reflexivity|]. split; [reflexivity|]. split; [reflexivity|].
  vm_compute. intros [H|[]]. discriminate H.
Qed.

(** * Further properties *)

(** ** Configuration *)

Lemma truthy_getenv_value (value : option string) :
  truthy (getenv_value value) = true <-> exists v, value = Some v /\ v <> "".
Proof.
  destruct value as [v|]; simpl.
  - rewrite negb_true_iff. split.
    + intros H. exists v. split; [reflexivity|]. intros ->. discriminate.
    + intros (v' & [= <-] & Hne). now apply String.eqb_neq.
  - split; [discriminate|]. intros (v & H & _). discriminate.
Qed.

(** X1: the module loads exactly when both keys are set to non-empty
    strings; the configuration then holds the two keys as given and the
    base URL as given or, when the variable is unset, the local default. *)
Theorem load_config_accepts_iff (environ : gmap string string) (c : config) :
  load_config environ = Ok c
  <-> exists api_key sarvam_key,
        environ !! "OPENAI_API_KEY" = Some api_key /\ api_key <> ""
        /\ environ !! "SARVAM_API_KEY" = Some sarvam_key /\ sarvam_key <> ""
        /\ c = Config (default "http://localhost:8080/v1"
                         (environ !! "OPEN_RESPONSES_URL"))
                      (Some api_key) (Some sarvam_key).
Proof.
  unfold load_config. split.
  - destruct (truthy (getenv_value (environ !! "OPENAI_API_KEY"))) eqn:Ha;
      [|discriminate].
    destruct (truthy (getenv_value (environ !! "SARVAM_API_KEY"))) eqn:Hs;
      [|discriminate].
    simpl. intros [= <-].
    apply truthy_getenv_value in Ha as (a & Ha & Hane).
    apply truthy_getenv_value in Hs as (s & Hs & Hsne).
    exists a, s. rewrite Ha, Hs. auto.
  - intros (a & s & Ha & Hane & Hs & Hsne & ->).
    rewrite (proj2 (truthy_getenv_value (environ !! "OPENAI_API_KEY")))
      by (exists a; auto).
    rewrite (proj2 (truthy_getenv_value (environ !! "SARVAM_API_KEY")))
      by (exists s; auto).
    simpl. now rewrite Ha, Hs.
Qed.

(** X2: an OpenAI key that is unset or set to the empty string stops the
    module with the error that names it, whatever the Sarvam key is; with a
    usable OpenAI key, an unset or empty Sarvam key stops it with the
    error that names the Sarvam key. *)
Theorem load_config_reports_first_missing_key
    (environ : gmap string string) (api_key : string) :
  ((environ !! "OPENAI_API_KEY" = None \/ environ !! "OPENAI_API_KEY" = Some "") ->
   load_config environ
   = Raise (Exception "Please set the OPENAI_API_KEY environment variable."))
  /\ (environ !! "OPENAI_API_KEY" = Some api_key -> api_key <> "" ->
      (environ !! "SARVAM_API_KEY" = None \/ environ !! "SARVAM_API_KEY" = Some "") ->
      load_config environ
      = Raise (Exception "Please set the SARVAM_API_KEY environment variable.")).
Proof.
  unfold load_config. split.
  - intros [-> | ->]; reflexivity.
  - intros Ha Hane Hs.
    rewrite (proj2 (truthy_getenv_value (environ !! "OPENAI_API_KEY")))
      by (exists api_key; auto).
    destruct Hs as [-> | ->]; reflexivity.
Qed.

(** X3: variables other than the three the module reads do not matter. *)
Theorem load_config_ignores_other_variables
    (environ : gmap string string) (key value : string) :
  key <> "OPEN_RESPONSES_URL" -> key <> "OPENAI_API_KEY" -> key <> "SARVAM_API_KEY" ->
  load_config (<[key := value]> environ) = load_config environ
  /\ load_config (delete key environ) = load_config environ.
Proof.
  intros H1 H2 H3. unfold load_config.
  rewrite !lookup_insert_ne, !lookup_delete_ne by done. split; reflexivity.
Qed.

Lemma load_config_accepts_iff_witness :
  load_config sample_environ = Ok (Config "http://localhost:8080/v1" (Some "sk-test") (Some "sv-test")).
Proof.
  apply (proj2 (load_config_accepts_iff sample_environ
                  (Config "http://localhost:8080/v1" (Some "sk-test") (Some "sv-test")))).
  exists "sk-test", "sv-test". repeat split; try discriminate; reflexivity.
Defined.

Lemma load_config_reports_first_missing_key_witness :
  load_config (<["OPENAI_API_KEY" := ""]> sample_environ)
  = Raise (Exception "Please set the OPENAI_API_KEY environment variable.").
Proof.
  apply (proj1 (load_config_reports_first_missing_key
                  (<["OPENAI_API_KEY" := ""]> sample_environ) "")).
  right. reflexivity.
Defined.

Lemma load_config_ignores_other_variables_witness :
  load_config (<["HOME" := "/root"]> sample_environ) = load_config sample_environ.
Proof.
  apply (load_config_ignores_other_variables sample_environ "HOME" "/root");
    discriminate.
Defined.

(** ** Frames *)

Section Keeping.

Context (R : world -> world -> Prop) `{!Frame R}.

Lemma keeps_ret {A} (a : A) : keeps R (ret a).
Proof. intros w. apply frame_refl. Qed.

Lemma keeps_lift {A} (r : result A) : keeps R (lift r).
Proof. intros w. apply frame_refl. Qed.

Lemma keeps_get_world : keeps R get_world.
Proof. intros w. apply frame_refl. Qed.

Lemma keeps_os_path_exists (path : string) : keeps R (os_path_exists path).
Proof. intros w. apply frame_refl. Qed.

Lemma keeps_modify (f : world -> world) :
  (forall w, R w (f w)) -> keeps R (modify f).
Proof. intros H w. apply H. Qed.

Lemma keeps_enter (e : entry) : keeps R (enter e).
Proof. intros w. apply frame_log. Qed.

Lemma keeps_extern {A} (c : call) (answer : nat -> result A) :
  keeps R (extern c answer).
Proof.
  intros w. rewrite extern_run. simpl.
  eapply frame_trans; [apply frame_log|apply frame_tick].
Qed.

Lemma keeps_open_file (path : string) : keeps R (open_file path).
Proof.
  intros w. unfold open_file. destruct (bool_decide (path ∈ files w)); simpl;
    (eapply frame_trans; [apply frame_log|apply frame_tick]).
Qed.

Lemma keeps_unlink (path : string) :
  (forall f w, f ⊆ files w -> R w (set_files f w)) -> keeps R (unlink path).
Proof.
  intros Hfiles w. unfold unlink. destruct (bool_decide (path ∈ files w)); simpl.
  - eapply frame_trans; [apply (Hfiles (files w ∖ {[path]}))|].
    + apply subseteq_difference_l. reflexivity.
    + eapply frame_trans; [apply frame_log|apply frame_tick].
  - eapply frame_trans; [apply frame_log|apply frame_tick].
Qed.

Lemma keeps_bind {A B} (m : M A) (k : A -> M B) :
  keeps R m -> (forall a, keeps R (k a)) -> keeps R (bind m k).
Proof.
  intros Hm Hk w. unfold bind. specialize (Hm w).
  destruct (m w) as [[a|e] w1]; simpl in *; [|exact Hm].
  eapply frame_trans; [exact Hm|apply Hk].
Qed.

Lemma keeps_try_except {A} (body : M A) (handler : string -> M A) :
  keeps R body -> (forall msg, keeps R (handler msg)) -> keeps R (try_except body handler).
Proof.
  intros Hm Hk w. unfold try_except. specialize (Hm w).
  destruct (body w) as [[a|[|msg]] w1]; simpl in *; try exact Hm.
  eapply frame_trans; [exact Hm|apply Hk].
Qed.

Lemma keeps_try_except_interrupt {A} (body on_interrupt : M A)
    (on_exception : string -> M A) :
  keeps R body -> keeps R on_interrupt -> (forall msg, keeps R (on_exception msg)) ->
  keeps R (try_except_interrupt body on_interrupt on_exception).
Proof.
  intros Hm Hi Hk w. unfold try_except_interrupt. specialize (Hm w).
  destruct (body w) as [[a|[|msg]] w1]; simpl in *; try exact Hm.
  - eapply frame_trans; [exact Hm|apply Hi].
  - eapply frame_trans; [exact Hm|apply Hk].
Qed.

Lemma keeps_try_finally {A} (body : M A) (cleanup : M unit) :
  keeps R body -> keeps R cleanup -> keeps R (try_finally body cleanup).
Proof.
  intros Hm Hc w. unfold try_finally. specialize (Hm w).
  destruct (body w) as [r w1]. specialize (Hc w1).
  destruct (cleanup w1) as [[u|e] w2]; simpl in *;
    (eapply frame_trans; [exact Hm|exact Hc]).
Qed.

End Keeping.

Lemma same_session_frame : Frame same_session.
Proof.
  split; unfold same_session; simpl; try tauto.
  intros w1 w2 w3 [H1 H2] [H3 H4]. split; congruence.
Qed.

Lemma same_vector_store_frame : Frame same_vector_store.
Proof.
  split; unfold same_vector_store; simpl; try tauto.
  intros w1 w2 w3 H1 H2. congruence.
Qed.

Lemma same_files_frame : Frame same_files.
Proof.
  split; unfold same_files; simpl; try tauto.
  intros w1 w2 w3 H1 H2. congruence.
Qed.

Lemma files_kept_frame : Frame files_kept.
Proof.
  split; unfold files_kept; simpl; try reflexivity.
  intros w1 w2 w3 H1 H2. etrans; eauto.
Qed.

Lemma no_new_files_frame : Frame no_new_files.
Proof.
  split; unfold no_new_files; simpl; try reflexivity.
  intros w1 w2 w3 H1 H2. etrans; eauto.
Qed.

#[local] Existing Instances same_session_frame same_vector_store_frame
  same_files_frame files_kept_frame no_new_files_frame.

Ltac frame_goal :=
  try match goal with |- Frame _ => exact _ end.

Ltac keep_step :=
  first
    [ assumption
    | solve [auto 1 with keeps nocore]
    | lazymatch goal with
      | |- keeps _ (ret _) => apply keeps_ret
      | |- keeps _ get_world => apply keeps_get_world
      | |- keeps _ (os_path_exists _) => apply keeps_os_path_exists
      | |- keeps _ (enter _) => apply keeps_enter
      | |- keeps _ (extern _ _) => apply keeps_extern
      | |- keeps _ (open_file _) => apply keeps_open_file
      | |- keeps _ (lift _) => apply keeps_lift
      | |- keeps _ (unlink _) => apply keeps_unlink; [..|intros ? ? ?]
      | |- keeps _ (modify _) => apply keeps_modify; [..|intros ?]
      | |- keeps _ (try_finally _ _) => apply keeps_try_finally
      | |- keeps _ (try_except _ _) => apply keeps_try_except; [..|intros ?]
      | |- keeps _ (try_except_interrupt _ _ _) =>
          apply keeps_try_except_interrupt; [..|intros ?]
      | |- keeps _ (bind _ _) => apply keeps_bind; [..|intros ?]
      | |- keeps _ (if ?c then _ else _) => destruct c
      end; frame_goal ].

Ltac keep := repeat keep_step.

Create HintDb keeps.

Section Frames.

Context (env : Env).

Lemma play_segments_keeps_session (audio_segments : list pyval) (i : nat) :
  keeps same_session (play_segments env audio_segments i).
Proof.
  revert i. induction audio_segments as [|a rest IH]; intros i; simpl.
  - apply keeps_ret. exact _.
  - unfold _play_base64_audio, named_temporary_file, wait_for_playback.
    keep; split; reflexivity.
Qed.

Lemma play_audio_with_save_keeps_session (audio_response : pyval) (i : nat) :
  keeps same_session (_play_audio_with_save env audio_response i).
Proof.
  unfold _play_audio_with_save, named_temporary_file, wait_for_playback.
  keep; split; reflexivity.
Qed.

#[local] Hint Resolve play_segments_keeps_session play_audio_with_save_keeps_session
  : keeps.

Lemma record_audio_keeps_session (duration sample_rate : Z) :
  keeps same_session (record_audio env duration sample_rate).
Proof. unfold record_audio, named_temporary_file. keep; split; reflexivity. Qed.

Lemma speech_to_text_keeps_session (audio_file lang_code : string) :
  keeps same_session (speech_to_text env audio_file lang_code).
Proof. unfold speech_to_text. keep; split; reflexivity. Qed.

Lemma text_to_speech_keeps_session (text : pyval) (speaker lang_code : string) :
  keeps same_session (text_to_speech env text speaker lang_code).
Proof. unfold text_to_speech, synthesize_and_play. keep. Qed.

(** X4: voice capture, transcription and speech synthesis never change the
    session: the vector-store identifier and the previous-response
    identifier are the same after [record_audio], [speech_to_text] and
    [text_to_speech] as before, however the call ends. *)
Theorem voice_adapters_keep_session
    (duration sample_rate : Z) (audio_file lang_code speaker : string) (text : pyval)
    (w : world) :
  same_session w (record_audio env duration sample_rate w).2
  /\ same_session w (speech_to_text env audio_file lang_code w).2
  /\ same_session w (text_to_speech env text speaker lang_code w).2.
Proof.
  split; [|split].
  - apply record_audio_keeps_session.
  - apply speech_to_text_keeps_session.
  - apply text_to_speech_keeps_session.
Qed.

(** X5: a query and document ingestion never create or remove a local
    file, and ingestion leaves the previous-response identifier alone. *)
Theorem remote_calls_keep_files
    (user_input : pyval) (file_path vector_store_name : string) (w : world) :
  files (process_query env user_input w).2 = files w
  /\ files (setup_rag_system env file_path vector_store_name w).2 = files w
  /\ previous_response_id (setup_rag_system env file_path vector_store_name w).2
     = previous_response_id w.
Proof.
  split; [|split].
  - assert (H : keeps same_files (process_query env user_input)).
    { unfold process_query. keep; reflexivity. }
    apply H.
  - assert (H : keeps same_files (setup_rag_system env file_path vector_store_name)).
    { unfold setup_rag_system, upload_file, create_vector_store,
        add_file_to_vector_store. keep; reflexivity. }
    apply H.
  - unfold setup_rag_system, upload_file, create_vector_store, add_file_to_vector_store,
      bind, open_file, extern, lift, modify, ret.
    all_answers; reflexivity.
Qed.

Lemma iteration_keeps_vector_store : keeps same_vector_store (iteration env).
Proof.
  unfold iteration, loop_body, record_audio, named_temporary_file, speech_to_text,
    process_query, text_to_speech, synthesize_and_play.
  assert (Hs : forall segs i, keeps same_vector_store (play_segments env segs i)).
  { intros segs i w. apply (play_segments_keeps_session segs i w). }
  assert (Hp : forall r i, keeps same_vector_store (_play_audio_with_save env r i)).
  { intros r i w. apply (play_audio_with_save_keeps_session r i w). }
  keep; reflexivity.
Qed.

Lemma conversation_loop_keeps (fuel : nat) (w : world) :
  vector_store_id (conversation_loop env fuel w).2 = vector_store_id w.
Proof.
  revert w. induction fuel as [|fuel IH]; intros w; simpl; [reflexivity|].
  pose proof (iteration_keeps_vector_store w) as Hit.
  destruct (iteration env w) as [[[|]|e] w1]; simpl in *; try exact Hit.
  rewrite IH. exact Hit.
Qed.

(** X6: the conversation loop never changes the vector-store identifier,
    however many passes it makes and however it ends; nor does a single
    pass, handlers included. *)
Theorem conversation_loop_keeps_vector_store (fuel : nat) (w : world) :
  vector_store_id (conversation_loop env fuel w).2 = vector_store_id w
  /\ vector_store_id (iteration env w).2 = vector_store_id w.
Proof.
  split; [apply conversation_loop_keeps|apply iteration_keeps_vector_store].
Qed.

End Frames.

(** ** Voice capture and transcription, continued *)

Section CaptureMore.

Context (env : Env).

Lemma record_audio_run (duration sample_rate : Z) (path : string) (w w1 : world) :
  record_audio env duration sample_rate w = (Ok path, w1) ->
  files w1 = {[path]} ∪ files w
  /\ trace w1 = trace w ++
       [Lib (sd_rec (duration * sample_rate) sample_rate, Returned);
        Lib (sd_wait, Returned);
        Lib (NamedTemporaryFile ".wav", Returned);
        Lib (wavfile_write path, Returned)].
Proof.
  unfold record_audio, named_temporary_file, bind, extern, modify, ret.
  all_answers; intros H; inversion H; subst; clear H; simpl.
  split; [reflexivity|]. rewrite <- !app_assoc. reflexivity.
Qed.

(** X7: a recording that returns has made its four library calls in order
    and left exactly one more file behind, the one whose path it returns;
    and however [record_audio] ends, it removes no file. *)
Theorem record_audio_creates_file (duration sample_rate : Z) (w : world) :
  (forall path w1,
      record_audio env duration sample_rate w = (Ok path, w1) ->
      files w1 = {[path]} ∪ files w
      /\ trace w1 = trace w ++
           [Lib (sd_rec (duration * sample_rate) sample_rate, Returned);
            Lib (sd_wait, Returned);
            Lib (NamedTemporaryFile ".wav", Returned);
            Lib (wavfile_write path, Returned)])
  /\ files w ⊆ files (record_audio env duration sample_rate w).2.
Proof.
  split.
  - intros path w1. apply record_audio_run.
  - assert (H : keeps files_kept (record_audio env duration sample_rate)).
    { unfold record_audio, named_temporary_file. keep.
      unfold files_kept. simpl. apply union_subseteq_r. }
    apply H.
Qed.

(** X8: when writing the samples fails, the exception leaves
    [record_audio] and the temporary file created for them stays. *)
Theorem record_audio_leaves_file_on_write_failure
    (duration sample_rate : Z) (path : string) (e : exn) (w : world) :
  env_sd_rec env (clock w) = Ok tt ->
  env_sd_wait env (S (clock w)) = Ok tt ->
  env_tempname env (S (S (clock w))) ".wav" = Ok path ->
  env_wavfile_write env (S (S (S (clock w)))) path = Raise e ->
  (record_audio env duration sample_rate w).1 = Raise e
  /\ path ∈ files (record_audio env duration sample_rate w).2.
Proof.
  intros Hrec Hwait Hname Hwrite.
  unfold record_audio, named_temporary_file, bind, extern, modify, ret. simpl.
  rewrite Hrec. simpl. rewrite Hwait. simpl. rewrite Hname. simpl.
  rewrite Hwrite. simpl. split; [reflexivity|].
  apply elem_of_union_l. now apply elem_of_singleton.
Qed.

(** The [try]/[except] part of [speech_to_text] touches no file. *)
Lemma transcribe_keeps_files (audio_file lang_code : string) :
  keeps same_files
    (try_except
       (open_file audio_file ;;;
        response <- extern (sarvam_transcribe audio_file lang_code)
                      (fun t => env_transcribe env t audio_file lang_code) ;;
        text <- lift (getattr response "transcript") ;;
        ret text)
       (fun e => ret (VStr ("Error with speech recognition: " +:+ e)))).
Proof. keep. Qed.

Lemma cleanup_files (audio_file : string) (w : world) :
  files (bind (os_path_exists audio_file)
           (fun present => if present then unlink audio_file else ret tt) w).2
  = files w ∖ {[audio_file]}.
Proof.
  unfold bind, os_path_exists.
  destruct (bool_decide (audio_file ∈ files w)) eqn:E.
  - unfold unlink. rewrite E. reflexivity.
  - simpl. apply bool_decide_eq_false in E.
    apply set_eq. intros x. split.
    + intros Hx. apply elem_of_difference. split; [exact Hx|].
      intros Heq. apply elem_of_singleton in Heq. now subst.
    + intros Hx. now apply elem_of_difference in Hx as [Hx _].
Qed.

(** X9: [speech_to_text] removes its input file and touches no other
    file, however it ends; so capture followed by transcription leaves the
    file system as it was whenever the temporary name was not the name of
    an existing file. *)
Theorem capture_then_transcribe_restores_files
    (duration sample_rate : Z) (lang_code : string) (w : world) :
  (forall audio_file w0,
      files (speech_to_text env audio_file lang_code w0).2 = files w0 ∖ {[audio_file]})
  /\ (forall path w1,
        record_audio env duration sample_rate w = (Ok path, w1) ->
        path ∉ files w ->
        files (speech_to_text env path lang_code w1).2 = files w).
Proof.
  assert (Hstt : forall audio_file w0,
             files (speech_to_text env audio_file lang_code w0).2
             = files w0 ∖ {[audio_file]}).
  { intros audio_file w0. unfold speech_to_text, try_finally.
    pose proof (transcribe_keeps_files audio_file lang_code w0) as Hsame.
    destruct (try_except _ _ w0) as [r w2]. unfold same_files in Hsame. simpl in Hsame.
    pose proof (cleanup_files audio_file w2) as Hclean.
    destruct (bind (os_path_exists audio_file) _ w2) as [[u|e] w3]; simpl in *;
      now rewrite Hclean, Hsame. }
  split; [exact Hstt|].
  intros path w1 Hrec Hfresh. rewrite Hstt.
  destruct (record_audio_run duration sample_rate path w w1 Hrec) as [-> _].
  apply set_eq. intros x. split.
  - intros Hx. apply elem_of_difference in Hx as [Hx Hne].
    apply elem_of_union in Hx as [Hx | Hx]; [contradiction|exact Hx].
  - intros Hx. apply elem_of_difference. split; [now apply elem_of_union_r|].
    intros Heq. apply elem_of_singleton in Heq. now subst.
Qed.

Lemma speech_to_text_on_failure (audio_file lang_code msg : string) (w : world) :
  audio_file ∈ files w ->
  env_transcribe env (S (clock w)) audio_file lang_code = Raise (Exception msg) ->
  (speech_to_text env audio_file lang_code w).1
  = Ok (VStr ("Error with speech recognition: " +:+ msg)).
Proof.
  intros Hfile Hfail. unfold speech_to_text, try_finally.
  assert (Hbody :
            (try_except
               (open_file audio_file ;;;
                response <- extern (sarvam_transcribe audio_file lang_code)
                              (fun t => env_transcribe env t audio_file lang_code) ;;
                text <- lift (getattr response "transcript") ;;
                ret text)
               (fun e => ret (VStr ("Error with speech recognition: " +:+ e))) w).1
            = Ok (VStr ("Error with speech recognition: " +:+ msg))).
  { unfold try_except, bind, open_file, extern, lift, ret.
    rewrite (bool_decide_eq_true_2 _ Hfile). simpl. now rewrite Hfail. }
  destruct (try_except _ _ w) as [r w1]. simpl in Hbody.
  destruct (cleanup_removes audio_file w1) as (w2 & -> & _). exact Hbody.
Qed.

(** X10: no [Exception] leaves [speech_to_text]; when the transcription
    request on an existing file raises one, the call returns the error
    text with the exception's message appended. *)
Theorem speech_to_text_reports_failure (audio_file lang_code : string) (w : world) :
  (forall msg, (speech_to_text env audio_file lang_code w).1 <> Raise (Exception msg))
  /\ (forall msg,
        audio_file ∈ files w ->
        env_transcribe env (S (clock w)) audio_file lang_code = Raise (Exception msg) ->
        (speech_to_text env audio_file lang_code w).1
        = Ok (VStr ("Error with speech recognition: " +:+ msg))).
Proof.
  split.
  - intros msg. unfold speech_to_text, try_finally.
    assert (Hbody : forall w0,
               (try_except
                  (open_file audio_file ;;;
                   response <- extern (sarvam_transcribe audio_file lang_code)
                                 (fun t => env_transcribe env t audio_file lang_code) ;;
                   text <- lift (getattr response "transcript") ;;
                   ret text)
                  (fun e => ret (VStr ("Error with speech recognition: " +:+ e))) w0).1
               <> Raise (Exception msg)).
    { intros w0. unfold try_except.
      destruct (bind _ _ w0) as [[a|[|m]] w1]; simpl; discriminate. }
    specialize (Hbody w).
    destruct (try_except _ _ w) as [r w1]. simpl in Hbody.
    destruct (cleanup_removes audio_file w1) as (w2 & -> & _). exact Hbody.
  - intros msg. apply speech_to_text_on_failure.
Qed.

(** X11: when the file to transcribe does not exist, [speech_to_text]
    sends no transcription request and removes nothing: opening the file
    is the only call made, and its failure comes back as the error text. *)
Theorem speech_to_text_missing_file (audio_file lang_code : string) (w : world) :
  audio_file ∉ files w ->
  exists msg,
    speech_to_text env audio_file lang_code w
    = (Ok (VStr ("Error with speech recognition: " +:+ msg)),
       tick (log (Lib (open_rb audio_file, Raised (Exception msg))) w)).
Proof.
  intros Hmissing. exists "No such file or directory".
  unfold speech_to_text, try_finally, try_except, bind, open_file, os_path_exists, ret.
  rewrite (bool_decide_eq_false_2 _ Hmissing). simpl.
  rewrite (bool_decide_eq_false_2 _ Hmissing). reflexivity.
Qed.

End CaptureMore.

(** ** Text-to-speech, continued *)

Section PlaybackMore.

Context (env : Env).

(** X12: given a text that has no length (as [None] has none),
    [text_to_speech] returns without a single library call: no synthesis
    is requested and nothing is played. *)
Theorem text_to_speech_without_length (text : pyval) (speaker lang_code : string) (w : world) :
  (forall n, len text <> Ok n) ->
  text_to_speech env text speaker lang_code w
  = (Ok tt, log (Enter_text_to_speech text) w).
Proof.
  intros Hlen.
  unfold text_to_speech, synthesize_and_play, bind, enter, modify, try_except, lift.
  simpl. destruct (len text) as [n|[|msg]] eqn:E.
  - now destruct (Hlen n).
  - now destruct (len_not_interrupted text).
  - reflexivity.
Qed.

(** X13: when the synthesis request raises an [Exception],
    [text_to_speech] returns normally; the request is the only call it
    made, so nothing is decoded, written or played. *)
Theorem text_to_speech_survives_synthesis_failure
    (text : pyval) (speaker lang_code msg : string) (n : Z) (w : world) :
  len text = Ok n ->
  env_convert env (clock w) text speaker lang_code = Raise (Exception msg) ->
  text_to_speech env text speaker lang_code w
  = (Ok tt,
     tick (log (Lib (sarvam_convert text speaker lang_code, Raised (Exception msg)))
             (log (Enter_text_to_speech text) w))).
Proof.
  intros Hlen Hconvert.
  unfold text_to_speech, synthesize_and_play, bind, enter, modify, try_except, lift,
    extern.
  simpl. rewrite Hlen. simpl. rewrite Hconvert. reflexivity.
Qed.

(** X14: when the synthesis response has no [audios] attribute, or one
    that is not a list, the save-and-play path is entered once, for
    segment 0, and the base64 path not at all. *)
Theorem text_to_speech_falls_back_to_save
    (text response : pyval) (speaker lang_code : string) (n : Z) (w : world) :
  len text = Ok n ->
  env_convert env (clock w) text speaker lang_code = Ok response ->
  (attr response "audios" = None
   \/ exists v, attr response "audios" = Some v /\ is_list v = false) ->
  exists evs,
    trace (text_to_speech env text speaker lang_code w).2
    = trace w ++ Enter_text_to_speech text
        :: Lib (sarvam_convert text speaker lang_code, Returned)
        :: Enter_play_audio_with_save response 0 :: evs
    /\ Forall (fun e => is_lib e = true) evs
    /\ playback_invocations evs = [].
Proof.
  intros Hlen Hconvert Hshape.
  change (text_to_speech env text speaker lang_code w)
    with (try_except (synthesize_and_play env text speaker lang_code)
            (fun _ => ret tt) (log (Enter_text_to_speech text) w)).
  set (w0 := log (Enter_text_to_speech text) w).
  set (w1 := tick (log (Lib (sarvam_convert text speaker lang_code, Returned)) w0)).
  assert (Hbody : synthesize_and_play env text speaker lang_code w0
                  = _play_audio_with_save env response 0 w1).
  { unfold synthesize_and_play, bind, lift, extern. rewrite Hlen. simpl.
    rewrite Hconvert. simpl. rewrite hasattr_attr.
    destruct Hshape as [-> | (v & Hv & Hnot)]; [reflexivity|].
    rewrite Hv. destruct (getattr_attr _ _ _ Hv) as [_ ->]. now rewrite Hnot. }
  unfold try_except. rewrite Hbody.
  destruct (play_audio_with_save_run env response 0 w1) as (evs & Ht & Hlib & _ & Hr).
  exists evs.
  assert (Htrace : trace (_play_audio_with_save env response 0 w1).2
                   = trace w ++ Enter_text_to_speech text
                       :: Lib (sarvam_convert text speaker lang_code, Returned)
                       :: Enter_play_audio_with_save response 0 :: evs).
  { rewrite Ht. unfold w1, w0. simpl. now rewrite <- !app_assoc. }
  split; [|split; [exact Hlib|now apply playback_invocations_lib]].
  destruct (_play_audio_with_save env response 0 w1) as [[u|[|m]] w2]; simpl in *;
    exact Htrace.
Qed.

(** One segment when nothing fails: it returns, and no file is left that
    was not there before. *)
Lemma play_base64_audio_clean (base64_audio : pyval) (segment_index : nat) (w : world) :
  playback_never_fails env ->
  (_play_base64_audio env base64_audio segment_index w).1 = Ok tt
  /\ files (_play_base64_audio env base64_audio segment_index w).2 ⊆ files w.
Proof.
  intros (Hdecode & Hname & Hwrite & Hload & Hplay & Hbusy).
  destruct (Hdecode (clock w) base64_audio) as (audio_bytes & Hd).
  destruct (Hname (S (clock w)) ("_segment_" +:+ pretty segment_index +:+ ".wav"))
    as (path & Hn).
  destruct (Hbusy (S (S (S (S (S (clock w))))))) as (polls & Hb).
  unfold _play_base64_audio, named_temporary_file, wait_for_playback, bind, enter,
    modify, try_except, extern, unlink, ret. simpl.
  rewrite Hd. simpl. rewrite Hn. simpl. rewrite Hwrite. simpl. rewrite Hload. simpl.
  rewrite Hplay. simpl. rewrite Hb. simpl.
  rewrite bool_decide_eq_true_2 by (apply elem_of_union_l; now apply elem_of_singleton).
  simpl. split; [reflexivity|].
  intros x Hx. apply elem_of_difference in Hx as [Hx Hne].
  apply elem_of_union in Hx as [Hx | Hx]; [contradiction|exact Hx].
Qed.

Lemma play_segments_clean (audio_segments : list pyval) (i : nat) (w : world) :
  playback_never_fails env ->
  (play_segments env audio_segments i w).1 = Ok tt
  /\ files (play_segments env audio_segments i w).2 ⊆ files w.
Proof.
  intros Hnever. revert i w.
  induction audio_segments as [|a rest IH]; intros i w; simpl.
  - split; reflexivity.
  - unfold bind. destruct (play_base64_audio_clean a i w Hnever) as [Hr Hf].
    destruct (_play_base64_audio env a i w) as [r w1]. simpl in *. subst r.
    destruct (IH (S i) w1) as [Hr2 Hf2]. split; [exact Hr2|]. etrans; eauto.
Qed.

(** X15: when decoding, writing, loading, playing and polling all succeed,
    [text_to_speech] on a list of segments of any length returns normally
    and leaves no file behind that did not exist before the call. *)
Theorem text_to_speech_leaves_no_file
    (text response : pyval) (speaker lang_code : string) (n : Z)
    (audio_segments : list pyval) (w : world) :
  playback_never_fails env ->
  len text = Ok n ->
  env_convert env (clock w) text speaker lang_code = Ok response ->
  attr response "audios" = Some (VList audio_segments) ->
  (text_to_speech env text speaker lang_code w).1 = Ok tt
  /\ files (text_to_speech env text speaker lang_code w).2 ⊆ files w.
Proof.
  intros Hnever Hlen Hconvert Haudios.
  change (text_to_speech env text speaker lang_code w)
    with (try_except (synthesize_and_play env text speaker lang_code)
            (fun _ => ret tt) (log (Enter_text_to_speech text) w)).
  set (w0 := log (Enter_text_to_speech text) w).
  set (w1 := tick (log (Lib (sarvam_convert text speaker lang_code, Returned)) w0)).
  assert (Hbody : synthesize_and_play env text speaker lang_code w0
                  = play_segments env audio_segments 0 w1).
  { unfold synthesize_and_play, bind, lift, extern. rewrite Hlen. simpl.
    rewrite Hconvert. simpl. rewrite hasattr_attr, Haudios.
    destruct (getattr_attr _ _ _ Haudios) as [-> ->]. reflexivity. }
  unfold try_except. rewrite Hbody.
  destruct (play_segments_clean audio_segments 0 w1 Hnever) as [Hr Hf].
  destruct (play_segments env audio_segments 0 w1) as [r w2]. simpl in *. subst r.
  simpl. split; [reflexivity|exact Hf].
Qed.

End PlaybackMore.

(** ** Query processor, continued *)

Section QueryMore.

Context (env : Env).

(** X16: no [Exception] leaves [process_query] or [text_to_speech],
    whatever the state and the environment. *)
Theorem adapters_raise_no_exception
    (user_input text : pyval) (speaker lang_code msg : string) (w : world) :
  (process_query env user_input w).1 <> Raise (Exception msg)
  /\ (text_to_speech env text speaker lang_code w).1 <> Raise (Exception msg).
Proof.
  split.
  - destruct (truthy (vector_store_id w)) eqn:Hinit.
    + rewrite (process_query_run env user_input w Hinit). simpl.
      destruct (env_responses_create env (clock w) MODEL_NAME (vector_store_id w)
                  user_input (previous_response_id w)) as [response|[|m]]; simpl;
        try discriminate.
      destruct (extract_text env response) as [v|[|m]]; simpl; discriminate.
    + rewrite (process_query_guard env user_input w Hinit). discriminate.
  - destruct (text_to_speech_run env text speaker lang_code w) as (evs & _ & _ & Hr).
    destruct Hr as [-> | [-> _]]; discriminate.
Qed.

(** X17: [process_query] asks the responses service exactly once when the
    session has a usable vector-store identifier and not at all
    otherwise (an empty identifier counts as none); the request carries
    the session's two identifiers and the user input. *)
Theorem process_query_asks_once (user_input : pyval) (w : world) :
  trace (process_query env user_input w).2
  = trace w ++ Enter_process_query user_input
      :: (if truthy (vector_store_id w)
          then [Lib (responses_create MODEL_NAME (vector_store_id w) user_input
                       (previous_response_id w),
                     outcome_of (env_responses_create env (clock w) MODEL_NAME
                                   (vector_store_id w) user_input
                                   (previous_response_id w)))]
          else []).
Proof.
  destruct (truthy (vector_store_id w)) eqn:Hinit.
  - rewrite (process_query_run env user_input w Hinit). simpl.
    destruct (env_responses_create env (clock w) MODEL_NAME (vector_store_id w)
                user_input (previous_response_id w)) as [response|e]; simpl.
    + destruct (hasattr response "id"); simpl; now rewrite <- app_assoc.
    + now rewrite <- app_assoc.
  - rewrite (process_query_guard env user_input w Hinit). reflexivity.
Qed.

(** X18: once the responses service has answered, the session's
    previous-response identifier is the answer's [id] if it has one and
    the old identifier if not, also when no text can be extracted from
    the answer. *)
Theorem process_query_stores_response_id (user_input response : pyval) (w : world) :
  truthy (vector_store_id w) = true ->
  env_responses_create env (clock w) MODEL_NAME (vector_store_id w) user_input
    (previous_response_id w) = Ok response ->
  previous_response_id (process_query env user_input w).2
  = match attr response "id" with
    | Some response_id => response_id
    | None => previous_response_id w
    end.
Proof.
  intros Hinit Hanswer.
  rewrite (process_query_run env user_input w Hinit). simpl. rewrite Hanswer. simpl.
  rewrite hasattr_attr.
  destruct (attr response "id") as [rid|] eqn:Hid; [|reflexivity].
  now destruct (getattr_attr _ _ _ Hid) as [_ ->].
Qed.

(** X19: two queries in a row are chained: the request of the second
    carries the [id] of the first one's answer as its previous-response
    identifier. *)
Theorem process_query_chains_responses
    (first_input second_input response response_id : pyval) (w : world) :
  truthy (vector_store_id w) = true ->
  env_responses_create env (clock w) MODEL_NAME (vector_store_id w) first_input
    (previous_response_id w) = Ok response ->
  attr response "id" = Some response_id ->
  let w1 := (process_query env first_input w).2 in
  trace (process_query env second_input w1).2
  = trace w1 ++
      [Enter_process_query second_input;
       Lib (responses_create MODEL_NAME (vector_store_id w) second_input response_id,
            outcome_of (env_responses_create env (clock w1) MODEL_NAME
                          (vector_store_id w) second_input response_id))].
Proof.
  intros Hinit Hanswer Hid w1.
  assert (Hvs : vector_store_id w1 = vector_store_id w).
  { subst w1. rewrite (process_query_run env first_input w Hinit). simpl.
    rewrite Hanswer. simpl. now destruct (hasattr response "id"). }
  assert (Hprev : previous_response_id w1 = response_id).
  { subst w1. rewrite (process_query_run env first_input w Hinit). simpl.
    rewrite Hanswer. simpl. rewrite hasattr_attr, Hid.
    now destruct (getattr_attr _ _ _ Hid) as [_ ->]. }
  assert (Hinit1 : truthy (vector_store_id w1) = true) by now rewrite Hvs.
  rewrite (process_query_run env second_input w1 Hinit1). simpl.
  rewrite Hvs, Hprev.
  destruct (env_responses_create env (clock w1) MODEL_NAME (vector_store_id w)
              second_input response_id) as [response2|e]; simpl.
  - destruct (hasattr response2 "id"); simpl; now rewrite <- app_assoc.
  - now rewrite <- app_assoc.
Qed.

(** X20: an answer without an [output] attribute, or with an empty one,
    yields the fixed apology text. *)
Theorem process_query_apologises_for_empty_output
    (user_input response : pyval) (w : world) :
  truthy (vector_store_id w) = true ->
  env_responses_create env (clock w) MODEL_NAME (vector_store_id w) user_input
    (previous_response_id w) = Ok response ->
  (attr response "output" = None
   \/ exists output, attr response "output" = Some output /\ truthy output = false) ->
  (process_query env user_input w).1
  = Ok (VStr "Sorry, I couldn't generate a response.").
Proof.
  intros Hinit Hanswer Hshape.
  rewrite (process_query_run env user_input w Hinit). simpl. rewrite Hanswer. simpl.
  assert (Hextract : extract_text env response
                     = Ok (VStr "Sorry, I couldn't generate a response.")).
  { unfold extract_text. rewrite hasattr_attr.
    destruct Hshape as [-> | (output & Hout & Hfalsy)]; [reflexivity|].
    rewrite Hout. destruct (getattr_attr _ _ _ Hout) as [_ ->]. now rewrite Hfalsy. }
  now rewrite Hextract.
Qed.

End QueryMore.

(** ** Document ingestion, continued *)

Section IngestionMore.

Context (env : Env).

Lemma setup_rag_system_stores_result (file_path vector_store_name : string)
    (v : pyval) (w w' : world) :
  setup_rag_system env file_path vector_store_name w = (Ok v, w') ->
  vector_store_id w' = v.
Proof.
  unfold setup_rag_system, upload_file, create_vector_store, add_file_to_vector_store,
    bind, open_file, extern, lift, modify, ret.
  all_answers; intros H; inversion H; subst; clear H; reflexivity.
Qed.

Lemma setup_rag_system_failure_keeps_session (file_path vector_store_name : string)
    (e : exn) (w w' : world) :
  setup_rag_system env file_path vector_store_name w = (Raise e, w') ->
  vector_store_id w' = vector_store_id w.
Proof.
  unfold setup_rag_system, upload_file, create_vector_store, add_file_to_vector_store,
    bind, open_file, extern, lift, modify, ret.
  all_answers; intros H; inversion H; subst; clear H; reflexivity.
Qed.

Lemma setup_rag_system_tracks (file_path vector_store_name : string) :
  tracks (fun e => is_ingestion e = true)
         (setup_rag_system env file_path vector_store_name).
Proof.
  unfold setup_rag_system, upload_file, create_vector_store, add_file_to_vector_store.
  track; apply getattr_not_interrupted.
Qed.

(** X21: ingestion stops at the first call that fails and attempts nothing
    after it: a missing file means no remote call at all, a rejected
    upload means no vector store is created, and a failed creation means
    nothing is attached.  The exception of the failing call is the one
    that leaves [setup_rag_system]. *)
Theorem setup_rag_system_stops_at_first_failure
    (file_path vector_store_name : string) (w : world) :
  (file_path ∉ files w ->
   exists msg,
     setup_rag_system env file_path vector_store_name w
     = (Raise (Exception msg),
        tick (log (Lib (open_rb file_path, Raised (Exception msg))) w)))
  /\ (forall e,
        file_path ∈ files w ->
        env_files_create env (S (clock w)) file_path = Raise e ->
        exists w',
          setup_rag_system env file_path vector_store_name w = (Raise e, w')
          /\ trace w' = trace w ++
               [Lib (open_rb file_path, Returned);
                Lib (files_create file_path, Raised e)])
  /\ (forall upload file_id e,
        file_path ∈ files w ->
        env_files_create env (S (clock w)) file_path = Ok upload ->
        attr upload "id" = Some file_id ->
        env_vector_stores_create env (S (S (clock w))) vector_store_name = Raise e ->
        exists w',
          setup_rag_system env file_path vector_store_name w = (Raise e, w')
          /\ trace w' = trace w ++
               [Lib (open_rb file_path, Returned);
                Lib (files_create file_path, Returned);
                Lib (vector_stores_create vector_store_name, Raised e)]).
Proof.
  split; [|split].
  - intros Hmissing. exists "No such file or directory".
    unfold setup_rag_system, upload_file, bind, open_file.
    now rewrite (bool_decide_eq_false_2 _ Hmissing).
  - intros e Hfile Hupload.
    unfold setup_rag_system, upload_file, bind, open_file, extern.
    rewrite (bool_decide_eq_true_2 _ Hfile). simpl. rewrite Hupload. simpl.
    eexists. split; [reflexivity|]. simpl. now rewrite <- app_assoc.
  - intros upload file_id e Hfile Hupload Hid Hcreate.
    destruct (getattr_attr _ _ _ Hid) as [Hg _].
    unfold setup_rag_system, upload_file, create_vector_store, bind, open_file,
      extern, lift.
    rewrite (bool_decide_eq_true_2 _ Hfile). simpl. rewrite Hupload. simpl.
    rewrite Hg. simpl. rewrite Hcreate. simpl.
    eexists. split; [reflexivity|]. simpl. now rewrite <- !app_assoc.
Qed.

End IngestionMore.

(** ** Locating the document and the entry point *)

Section StartupProperties.

Context (host : Host) (env : Env).

(** X22: a path returned by [get_document_path] exists, and it is the
    first existing one among the file name as given, the file next to the
    script, and the file in the script's parent directory; the search
    changes nothing. *)
Theorem get_document_path_first_existing (filename path : string) (w w' : world) :
  get_document_path host filename w = (Ok path, w') ->
  w' = w
  /\ path ∈ files w
  /\ exists before after,
       document_candidates host filename = before ++ path :: after
       /\ Forall (fun candidate => candidate ∉ files w) before.
Proof.
  unfold get_document_path, document_candidates, bind, os_path_exists, lift, ret.
  simpl.
  destruct (bool_decide (filename ∈ files w)) eqn:E1; simpl.
  { intros [= <- <-]. apply bool_decide_eq_true in E1.
    split; [reflexivity|]. split; [exact E1|].
    exists [], [python_dir_path host filename; parent_dir_path host filename].
    split; [reflexivity|]. constructor. }
  destruct (bool_decide (python_dir_path host filename ∈ files w)) eqn:E2; simpl.
  { intros [= <- <-]. apply bool_decide_eq_true in E2. apply bool_decide_eq_false in E1.
    split; [reflexivity|]. split; [exact E2|].
    exists [filename], [parent_dir_path host filename].
    split; [reflexivity|]. repeat constructor. exact E1. }
  destruct (bool_decide (parent_dir_path host filename ∈ files w)) eqn:E3; simpl.
  { intros [= <- <-]. apply bool_decide_eq_true in E3.
    apply bool_decide_eq_false in E1. apply bool_decide_eq_false in E2.
    split; [reflexivity|]. split; [exact E3|].
    exists [filename; python_dir_path host filename], [].
    split; [reflexivity|]. repeat constructor; assumption. }
  discriminate.
Qed.

Lemma get_document_path_not_found (filename : string) (w : world) :
  Forall (fun candidate => candidate ∉ files w) (document_candidates host filename) ->
  get_document_path host filename w
  = (Raise (Exception (not_found_message filename)), w).
Proof.
  unfold get_document_path, document_candidates, bind, os_path_exists, lift, ret.
  simpl. intros Hall. inversion Hall as [|? ? H1 Hall1]; subst.
  inversion Hall1 as [|? ? H2 Hall2]; subst.
  inversion Hall2 as [|? ? H3 _]; subst.
  rewrite (bool_decide_eq_false_2 _ H1). simpl.
  rewrite (bool_decide_eq_false_2 _ H2). simpl.
  now rewrite (bool_decide_eq_false_2 _ H3).
Qed.

(** X23: [get_document_path] raises exactly when none of its three
    candidates exists; the exception is the one whose message names the
    file, and nothing has changed. *)
Theorem get_document_path_raises_iff (filename : string) (w : world) :
  (Forall (fun candidate => candidate ∉ files w) (document_candidates host filename) ->
   get_document_path host filename w
   = (Raise (Exception (not_found_message filename)), w))
  /\ (forall e w',
        get_document_path host filename w = (Raise e, w') ->
        Forall (fun candidate => candidate ∉ files w)
               (document_candidates host filename)).
Proof.
  split; [apply get_document_path_not_found|].
  unfold get_document_path, document_candidates, bind, os_path_exists, lift, ret.
  simpl. intros e w'.
  destruct (bool_decide (filename ∈ files w)) eqn:E1; simpl; [discriminate|].
  destruct (bool_decide (python_dir_path host filename ∈ files w)) eqn:E2; simpl;
    [discriminate|].
  destruct (bool_decide (parent_dir_path host filename ∈ files w)) eqn:E3; simpl;
    [discriminate|].
  intros _. apply bool_decide_eq_false in E1, E2, E3. repeat constructor; assumption.
Qed.

Lemma get_document_path_silent (filename : string) (w : world) :
  (get_document_path host filename w).2 = w
  /\ (get_document_path host filename w).1 <> Raise KeyboardInterrupt.
Proof.
  unfold get_document_path, bind, os_path_exists, lift, ret. simpl.
  destruct (bool_decide (filename ∈ files w)); simpl; [split; [reflexivity|discriminate]|].
  destruct (bool_decide (python_dir_path host filename ∈ files w)); simpl;
    [split; [reflexivity|discriminate]|].
  destruct (bool_decide (parent_dir_path host filename ∈ files w)); simpl;
    split; try reflexivity; discriminate.
Qed.

Lemma startup_tracks : tracks (fun e => is_ingestion e = true) (startup host env).
Proof.
  unfold startup. apply tracks_bind.
  - apply tracks_silent; intros w;
      destruct (get_document_path_silent "chapter.pdf" w) as [Hw Hr];
      [now rewrite Hw|exact Hr].
  - intros document_file. apply setup_rag_system_tracks.
Qed.

Lemma startup_session (w : world) :
  match startup host env w with
  | (Ok v, w1) => vector_store_id w1 = v
  | (Raise _, w1) => vector_store_id w1 = vector_store_id w
  end.
Proof.
  unfold startup, bind.
  destruct (get_document_path_silent "chapter.pdf" w) as [Hw _].
  destruct (get_document_path host "chapter.pdf" w) as [[document_file|e] w0];
    simpl in Hw; subst w0; [|reflexivity].
  destruct (setup_rag_system env document_file "voice-demo-docs" w) as [[v|e] w1] eqn:E.
  - eapply setup_rag_system_stores_result; eauto.
  - eapply setup_rag_system_failure_keeps_session; eauto.
Qed.

(** X24: when the document is in none of the three places, [main] returns
    normally without having made a single library call: nothing is
    uploaded, recorded or spoken, whatever the number of passes allowed. *)
Theorem main_without_document (fuel : nat) (existing : gset string) :
  host_mixer_init host = Ok tt ->
  Forall (fun candidate => candidate ∉ existing)
         (document_candidates host "chapter.pdf") ->
  main host env fuel existing = (Some (Ok tt), init_world existing).
Proof.
  intros Hinit Hmissing. unfold main, main_try, startup, bind. rewrite Hinit.
  now rewrite (get_document_path_not_found "chapter.pdf" (init_world existing) Hmissing).
Qed.

(** X25: an [Exception] leaves [main] only when building the demo object
    failed, that is when the mixer could not be initialised; nothing else
    has happened then.  Every [Exception] raised later is swallowed. *)
Theorem main_raises_only_from_construction
    (fuel : nat) (existing : gset string) (msg : string) (w : world) :
  main host env fuel existing = (Some (Raise (Exception msg)), w) ->
  host_mixer_init host = Raise (Exception msg) /\ w = init_world existing.
Proof.
  unfold main. destruct (host_mixer_init host) as [u|e].
  - destruct (main_try host env fuel (init_world existing)) as [[[u'|[|m]]|] w1];
      discriminate.
  - intros [= -> <-]. split; reflexivity.
Qed.

(** X26: when locating or ingesting the document raises an [Exception],
    [main] returns normally without starting the conversation: the calls
    made are ingestion calls only, and the session has no vector store. *)
Theorem main_stops_after_failed_startup
    (fuel : nat) (existing : gset string) (msg : string) :
  host_mixer_init host = Ok tt ->
  (startup host env (init_world existing)).1 = Raise (Exception msg) ->
  main host env fuel existing
  = (Some (Ok tt), (startup host env (init_world existing)).2)
  /\ Forall (fun e => is_ingestion e = true)
            (trace (startup host env (init_world existing)).2)
  /\ vector_store_id (startup host env (init_world existing)).2 = VNone.
Proof.
  intros Hinit Hfail. unfold main, main_try. rewrite Hinit.
  destruct (startup_tracks (init_world existing)) as (evs & Ht & HP & _).
  pose proof (startup_session (init_world existing)) as Hs.
  destruct (startup host env (init_world existing)) as [r w1]. simpl in *. subst r.
  split; [reflexivity|]. split; [now rewrite Ht|exact Hs].
Qed.

(** X27: once ingestion has returned an identifier, the session [main]
    works with holds that identifier for as long as the conversation
    runs and after it has ended. *)
Theorem main_keeps_ingested_vector_store
    (fuel : nat) (existing : gset string) (v : pyval) (w1 : world) :
  host_mixer_init host = Ok tt ->
  startup host env (init_world existing) = (Ok v, w1) ->
  vector_store_id (main host env fuel existing).2 = v.
Proof.
  intros Hinit Hstart. unfold main, main_try. rewrite Hinit.
  pose proof (startup_session (init_world existing)) as Hs.
  rewrite Hstart in *.
  pose proof (conversation_loop_keeps env fuel w1) as Hkeep.
  destruct (conversation_loop env fuel w1) as [[[u|[|m]]|] w2]; simpl in *; congruence.
Qed.

End StartupProperties.

(** ** Conversation loop, continued *)

Section LoopMore.

Context (env : Env).

Lemma speech_invocations_app (evs1 evs2 : list entry) :
  speech_invocations (evs1 ++ evs2) = speech_invocations evs1 ++ speech_invocations evs2.
Proof.
  induction evs1 as [|e evs1 IH]; simpl; [reflexivity|].
  destruct e; simpl; now rewrite IH.
Qed.

(** A pass that ends the loop has, as its last synthesis call, the
    farewell, or else the apology during which it was interrupted. *)
Lemma iteration_last_words (w : world) :
  exists evs,
    trace (iteration env w).2 = trace w ++ evs
    /\ ((iteration env w).1 = Ok Next
        \/ (((iteration env w).1 = Ok Break
             \/ (iteration env w).1 = Raise KeyboardInterrupt)
            /\ last (speech_invocations evs) = Some (VStr "Goodbye!"))
        \/ ((iteration env w).1 = Raise KeyboardInterrupt
            /\ last (speech_invocations evs)
               = Some (VStr "Sorry, I encountered an error."))).
Proof.
  unfold iteration, try_except_interrupt.
  destruct (loop_body_tracks env w) as (evs1 & Ht1 & _ & _).
  pose proof (loop_body_returns_next env w) as Hnext.
  destruct (loop_body env w) as [[c|[|msg]] w1]; simpl in *.
  - exists evs1. split; [exact Ht1|]. left. now rewrite (Hnext c).
  - destruct (speak_then env (VStr "Goodbye!") Break w1) as (evs2 & Ht2 & Hs2 & Hr2).
    exists (evs1 ++ evs2). rewrite Ht2, Ht1, app_assoc. split; [reflexivity|].
    right. left. split.
    + destruct Hr2 as [Hok | [Hki _]]; auto.
    + rewrite speech_invocations_app, Hs2. apply last_snoc.
  - destruct (speak_then env (VStr "Sorry, I encountered an error.") Next w1)
      as (evs2 & Ht2 & Hs2 & Hr2).
    exists (evs1 ++ evs2). rewrite Ht2, Ht1, app_assoc. split; [reflexivity|].
    destruct Hr2 as [Hok | [Hki _]]; [now left|].
    right. right. split; [exact Hki|].
    rewrite speech_invocations_app, Hs2. apply last_snoc.
Qed.

(** X28: whenever the conversation loop is left, the last synthesis call
    it entered is the farewell, or the apology during which the user
    interrupted; after a normal exit it is the farewell. *)
Theorem conversation_loop_last_words (fuel : nat) (w w' : world) (r : result unit) :
  conversation_loop env fuel w = (Some r, w') ->
  exists evs,
    trace w' = trace w ++ evs
    /\ (last (speech_invocations evs) = Some (VStr "Goodbye!")
        \/ (r = Raise KeyboardInterrupt
            /\ last (speech_invocations evs)
               = Some (VStr "Sorry, I encountered an error."))).
Proof.
  revert w. induction fuel as [|fuel IH]; intros w; simpl; [discriminate|].
  destruct (iteration_last_words w) as (evs1 & Ht1 & Hr1).
  destruct (iteration env w) as [[[|]|e] w1]; simpl in *.
  - intros H. destruct (IH w1 H) as (evs2 & Ht2 & Hlast).
    exists (evs1 ++ evs2). rewrite Ht2, Ht1, app_assoc. split; [reflexivity|].
    rewrite speech_invocations_app, last_app.
    destruct Hlast as [-> | [Hr ->]]; auto.
  - intros [= <- <-]. exists evs1. split; [exact Ht1|].
    destruct Hr1 as [Hn | [[_ Hlast] | [Hki _]]]; try discriminate. now left.
  - intros [= <- <-]. exists evs1. split; [exact Ht1|].
    destruct Hr1 as [Hn | [[_ Hlast] | [Hki Hlast]]]; try discriminate; [now left|].
    right. split; [congruence|exact Hlast].
Qed.

(** A pass with a non-empty transcript runs the query on it; everything
    else the pass does comes after. *)
Lemma pass_with_transcript (audio_file : string) (user_input : pyval) (w w1 w2 : world) :
  record_audio env 5 44100 w = (Ok audio_file, w1) ->
  speech_to_text env audio_file "hi-IN" w1 = (Ok user_input, w2) ->
  truthy user_input = true ->
  exists rest,
    trace (iteration env w).2 = trace (process_query env user_input w2).2 ++ rest.
Proof.
  intros Hrec Hstt Htruthy.
  assert (Hbody : exists rest,
             trace (loop_body env w).2
             = trace (process_query env user_input w2).2 ++ rest).
  { unfold loop_body, bind. rewrite Hrec, Hstt, Htruthy. simpl.
    destruct (process_query env user_input w2) as [[response|e] w3]; simpl.
    - destruct (text_to_speech_tracks env response "anushka" "hi-IN" w3)
        as (evs3 & Ht3 & _).
      destruct (text_to_speech env response "anushka" "hi-IN" w3) as [[u|e] w4];
        simpl in *; now exists evs3.
    - exists []. now rewrite app_nil_r. }
  destruct Hbody as (rest & Hbt).
  unfold iteration, try_except_interrupt.
  destruct (loop_body env w) as [[c|[|m]] w5]; simpl in *.
  - exists rest. exact Hbt.
  - destruct (speak_then env (VStr "Goodbye!") Break w5) as (evs5 & Ht5 & _).
    exists (rest ++ evs5). now rewrite Ht5, Hbt, app_assoc.
  - destruct (speak_then env (VStr "Sorry, I encountered an error.") Next w5)
      as (evs5 & Ht5 & _).
    exists (rest ++ evs5). now rewrite Ht5, Hbt, app_assoc.
Qed.

(** X29: a failed transcription is not skipped: its error text is truthy,
    so the pass goes on and sends that text to the responses service as
    if the user had said it. *)
Theorem transcription_error_is_queried
    (audio_file msg : string) (w w1 : world) :
  truthy (vector_store_id w) = true ->
  record_audio env 5 44100 w = (Ok audio_file, w1) ->
  env_transcribe env (S (clock w1)) audio_file "hi-IN" = Raise (Exception msg) ->
  exists o,
    In (Lib (responses_create MODEL_NAME (vector_store_id w)
               (VStr ("Error with speech recognition: " +:+ msg))
               (previous_response_id w), o))
       (trace (iteration env w).2).
Proof.
  intros Hinit Hrec Hfail.
  destruct (record_audio_run env 5 44100 audio_file w w1 Hrec) as [Hfiles _].
  destruct (record_audio_keeps_session env 5 44100 w) as [Hvs1 Hprev1].
  rewrite Hrec in Hvs1, Hprev1. simpl in Hvs1, Hprev1.
  assert (Hfile : audio_file ∈ files w1).
  { rewrite Hfiles. apply elem_of_union_l. now apply elem_of_singleton. }
  pose proof (speech_to_text_on_failure env audio_file "hi-IN" msg w1 Hfile Hfail)
    as Hstt.
  destruct (speech_to_text_keeps_session env audio_file "hi-IN" w1) as [Hvs2 Hprev2].
  destruct (speech_to_text env audio_file "hi-IN" w1) as [r2 w2] eqn:Estt.
  simpl in Hstt, Hvs2, Hprev2. subst r2.
  assert (Htruthy : truthy (VStr ("Error with speech recognition: " +:+ msg)) = true)
    by reflexivity.
  destruct (pass_with_transcript audio_file _ w w1 w2 Hrec Estt Htruthy)
    as (rest & ->).
  assert (Hinit2 : truthy (vector_store_id w2) = true) by congruence.
  rewrite (process_query_run env _ w2 Hinit2). simpl.
  rewrite Hvs2, Hvs1, Hprev2, Hprev1.
  match goal with
  | |- context [match ?answer with Ok _ => _ | Raise _ => _ end] =>
      exists (outcome_of answer); apply in_or_app; left;
      destruct answer as [response|e] eqn:Eanswer
  end; simpl.
  - destruct (hasattr response "id"); simpl; apply in_or_app; right; left; reflexivity.
  - apply in_or_app. right. left. reflexivity.
Qed.

(** X30: on a session without a vector store, a pass with a non-empty
    transcript asks the responses service nothing and speaks the fixed
    not-initialised message instead of an answer. *)
Theorem uninitialised_pass_speaks_notice
    (audio_file : string) (user_input : pyval) (w w1 w2 : world) :
  truthy (vector_store_id w) = false ->
  record_audio env 5 44100 w = (Ok audio_file, w1) ->
  speech_to_text env audio_file "hi-IN" w1 = (Ok user_input, w2) ->
  truthy user_input = true ->
  exists evs,
    trace (loop_body env w).2
    = trace w2 ++ Enter_process_query user_input
        :: Enter_text_to_speech
             (VStr "RAG system not initialized. Please upload a document first.")
        :: evs
    /\ Forall (fun e => is_speech_entry e = false) evs.
Proof.
  intros Hnone Hrec Hstt Htruthy.
  destruct (record_audio_keeps_session env 5 44100 w) as [Hvs1 _].
  rewrite Hrec in Hvs1. simpl in Hvs1.
  destruct (speech_to_text_keeps_session env audio_file "hi-IN" w1) as [Hvs2 _].
  rewrite Hstt in Hvs2. simpl in Hvs2.
  assert (Hnone2 : truthy (vector_store_id w2) = false) by congruence.
  unfold loop_body, bind. rewrite Hrec, Hstt, Htruthy. simpl.
  rewrite (process_query_guard env user_input w2 Hnone2).
  destruct (text_to_speech_run env
              (VStr "RAG system not initialized. Please upload a document first.")
              "anushka" "hi-IN" (log (Enter_process_query user_input) w2))
    as (evs & Ht & Hs & _).
  exists evs. split; [|exact Hs].
  destruct (text_to_speech env _ "anushka" "hi-IN" _) as [[u|e] w4]; simpl in *;
    now rewrite Ht, <- app_assoc.
Qed.

End LoopMore.

(** ** Closed instances of the further properties *)

Lemma record_audio_creates_file_witness :
  record_audio calm_env 5 44100 ready_world
  = (Ok "/tmp/tmp2.wav", (record_audio calm_env 5 44100 ready_world).2)
  /\ files (record_audio calm_env 5 44100 ready_world).2
     = {["/tmp/tmp2.wav"]} ∪ files ready_world.
Proof.
  split; [vm_compute; reflexivity|].
  apply (proj1 (record_audio_creates_file calm_env 5 44100 ready_world)
           "/tmp/tmp2.wav" (record_audio calm_env 5 44100 ready_world).2).
  vm_compute; reflexivity.
Defined.

Lemma record_audio_leaves_file_on_write_failure_witness :
  (record_audio disk_full_env 5 44100 ready_world).1
  = Raise (Exception "No space left on device")
  /\ ("/tmp/tmp2.wav" ∈ files (record_audio disk_full_env 5 44100 ready_world).2).
Proof.
  apply (record_audio_leaves_file_on_write_failure disk_full_env 5 44100
           "/tmp/tmp2.wav" (Exception "No space left on device") ready_world);
    reflexivity.
Defined.

Lemma capture_then_transcribe_restores_files_witness :
  ("/tmp/tmp2.wav" ∉ files ready_world)
  /\ files (speech_to_text calm_env "/tmp/tmp2.wav" "hi-IN"
              (record_audio calm_env 5 44100 ready_world).2).2
     = files ready_world.
Proof.
  assert (Hfresh : "/tmp/tmp2.wav" ∉ files ready_world).
  { vm_compute. discriminate. }
  split; [exact Hfresh|].
  apply (proj2 (capture_then_transcribe_restores_files calm_env 5 44100 "hi-IN"
                  ready_world)
           "/tmp/tmp2.wav" (record_audio calm_env 5 44100 ready_world).2).
  - vm_compute; reflexivity.
  - exact Hfresh.
Defined.

Lemma speech_to_text_reports_failure_witness :
  ("/tmp/a.wav" ∈ files (init_world {["/tmp/a.wav"]}))
  /\ (speech_to_text deaf_env "/tmp/a.wav" "hi-IN" (init_world {["/tmp/a.wav"]})).1
     = Ok (VStr "Error with speech recognition: Service unavailable").
Proof.
  assert (Hfile : "/tmp/a.wav" ∈ files (init_world {["/tmp/a.wav"]})).
  { vm_compute; reflexivity. }
  split; [exact Hfile|].
  apply (proj2 (speech_to_text_reports_failure deaf_env "/tmp/a.wav" "hi-IN"
                  (init_world {["/tmp/a.wav"]})) "Service unavailable");
    [exact Hfile|reflexivity].
Defined.

Lemma speech_to_text_missing_file_witness :
  ("/tmp/a.wav" ∉ files (init_world ∅))
  /\ exists msg,
       speech_to_text calm_env "/tmp/a.wav" "hi-IN" (init_world ∅)
       = (Ok (VStr ("Error with speech recognition: " +:+ msg)),
          tick (log (Lib (open_rb "/tmp/a.wav", Raised (Exception msg)))
                  (init_world ∅))).
Proof.
  assert (Hmissing : "/tmp/a.wav" ∉ files (init_world ∅)) by apply not_elem_of_empty.
  split; [exact Hmissing|].
  apply (speech_to_text_missing_file calm_env "/tmp/a.wav" "hi-IN" (init_world ∅)).
  exact Hmissing.
Defined.

Lemma text_to_speech_without_length_witness :
  text_to_speech calm_env VNone "anushka" "hi-IN" ready_world
  = (Ok tt, log (Enter_text_to_speech VNone) ready_world).
Proof.
  apply (text_to_speech_without_length calm_env VNone "anushka" "hi-IN" ready_world).
  intros n. discriminate.
Defined.

Lemma text_to_speech_survives_synthesis_failure_witness :
  text_to_speech mute_env (VStr "forty-two") "anushka" "hi-IN" ready_world
  = (Ok tt,
     tick (log (Lib (sarvam_convert (VStr "forty-two") "anushka" "hi-IN",
                     Raised (Exception "Quota exceeded")))
             (log (Enter_text_to_speech (VStr "forty-two")) ready_world))).
Proof.
  apply (text_to_speech_survives_synthesis_failure mute_env (VStr "forty-two")
           "anushka" "hi-IN" "Quota exceeded" 9%Z ready_world); reflexivity.
Defined.

Lemma text_to_speech_falls_back_to_save_witness :
  exists evs,
    trace (text_to_speech single_payload_env (VStr "forty-two") "anushka" "hi-IN"
             ready_world).2
    = trace ready_world ++ Enter_text_to_speech (VStr "forty-two")
        :: Lib (sarvam_convert (VStr "forty-two") "anushka" "hi-IN", Returned)
        :: Enter_play_audio_with_save (VObj [("audio", VStr "UklGRg==")]) 0 :: evs
    /\ Forall (fun e => is_lib e = true) evs
    /\ playback_invocations evs = [].
Proof.
  apply (text_to_speech_falls_back_to_save single_payload_env (VStr "forty-two")
           (VObj [("audio", VStr "UklGRg==")]) "anushka" "hi-IN" 9%Z ready_world);
    [reflexivity|reflexivity|left; reflexivity].
Defined.

Lemma calm_playback_never_fails : playback_never_fails calm_env.
Proof.
  repeat split; intros; simpl; eauto.
Defined.

Lemma text_to_speech_leaves_no_file_witness :
  (text_to_speech calm_env (VStr "forty-two") "anushka" "hi-IN" ready_world).1 = Ok tt
  /\ files (text_to_speech calm_env (VStr "forty-two") "anushka" "hi-IN" ready_world).2
     ⊆ files ready_world.
Proof.
  apply (text_to_speech_leaves_no_file calm_env (VStr "forty-two")
           (VObj [("audios", VList [VStr "UklGRg=="; VStr "UklGRg=="])])
           "anushka" "hi-IN" 9%Z [VStr "UklGRg=="; VStr "UklGRg=="] ready_world);
    [exact calm_playback_never_fails|reflexivity..].
Defined.

Lemma process_query_stores_response_id_witness :
  previous_response_id (process_query textless_env (VStr "hello") ready_world).2
  = VStr "resp_9"
  /\ (process_query textless_env (VStr "hello") ready_world).1
     = Ok (VStr "Error processing query: object has no attribute 'text'").
Proof.
  split; [|reflexivity].
  apply (process_query_stores_response_id textless_env (VStr "hello")
           (VObj [("id", VStr "resp_9");
                  ("output", VList [VObj [("content", VList [VObj []])]])])
           ready_world); reflexivity.
Defined.

Lemma process_query_chains_responses_witness :
  trace (process_query calm_env (VStr "and then?")
           (process_query calm_env (VStr "hello") ready_world).2).2
  = trace (process_query calm_env (VStr "hello") ready_world).2 ++
      [Enter_process_query (VStr "and then?");
       Lib (responses_create MODEL_NAME (VStr "vs_1") (VStr "and then?") (VStr "resp_1"),
            Returned)].
Proof.
  apply (process_query_chains_responses calm_env (VStr "hello") (VStr "and then?")
           sample_response (VStr "resp_1") ready_world); reflexivity.
Defined.

Lemma process_query_apologises_for_empty_output_witness :
  (process_query empty_output_env (VStr "hello") ready_world).1
  = Ok (VStr "Sorry, I couldn't generate a response.").
Proof.
  apply (process_query_apologises_for_empty_output empty_output_env (VStr "hello")
           (VObj [("id", VStr "resp_2"); ("output", VList [])]) ready_world);
    [reflexivity|reflexivity|].
  right. exists (VList []). split; reflexivity.
Defined.

Lemma setup_rag_system_stops_at_first_failure_witness :
  ("chapter.pdf" ∉ files (init_world ∅))
  /\ exists msg,
       setup_rag_system calm_env "chapter.pdf" "voice-demo-docs" (init_world ∅)
       = (Raise (Exception msg),
          tick (log (Lib (open_rb "chapter.pdf", Raised (Exception msg)))
                  (init_world ∅))).
Proof.
  assert (Hmissing : "chapter.pdf" ∉ files (init_world ∅)) by apply not_elem_of_empty.
  split; [exact Hmissing|].
  apply (proj1 (setup_rag_system_stops_at_first_failure calm_env "chapter.pdf"
                  "voice-demo-docs" (init_world ∅))).
  exact Hmissing.
Defined.

Lemma get_document_path_first_existing_witness :
  get_document_path demo_host "chapter.pdf" (init_world {["/srv/demo/chapter.pdf"]})
  = (Ok "/srv/demo/chapter.pdf", init_world {["/srv/demo/chapter.pdf"]})
  /\ ("/srv/demo/chapter.pdf" ∈ files (init_world {["/srv/demo/chapter.pdf"]})).
Proof.
  assert (Hrun : get_document_path demo_host "chapter.pdf"
                   (init_world {["/srv/demo/chapter.pdf"]})
                 = (Ok "/srv/demo/chapter.pdf", init_world {["/srv/demo/chapter.pdf"]})).
  { vm_compute; reflexivity. }
  split; [exact Hrun|].
  apply (get_document_path_first_existing demo_host "chapter.pdf" "/srv/demo/chapter.pdf"
           (init_world {["/srv/demo/chapter.pdf"]})
           (init_world {["/srv/demo/chapter.pdf"]}) Hrun).
Defined.

Lemma no_document_anywhere :
  Forall (fun candidate => candidate ∉ (∅ : gset string))
         (document_candidates demo_host "chapter.pdf").
Proof. repeat constructor; apply not_elem_of_empty. Defined.

Lemma get_document_path_raises_iff_witness :
  get_document_path demo_host "chapter.pdf" (init_world ∅)
  = (Raise (Exception (not_found_message "chapter.pdf")), init_world ∅).
Proof.
  apply (proj1 (get_document_path_raises_iff demo_host "chapter.pdf" (init_world ∅))).
  exact no_document_anywhere.
Defined.

Lemma main_without_document_witness :
  main demo_host calm_env 3 ∅ = (Some (Ok tt), init_world ∅).
Proof.
  apply (main_without_document demo_host calm_env 3 ∅); [reflexivity|].
  exact no_document_anywhere.
Defined.

Lemma main_raises_only_from_construction_witness :
  main headless_host calm_env 3 {["/srv/demo/chapter.pdf"]}
  = (Some (Raise (Exception "No available audio device")),
     init_world {["/srv/demo/chapter.pdf"]})
  /\ host_mixer_init headless_host = Raise (Exception "No available audio device").
Proof.
  assert (Hrun : main headless_host calm_env 3 {["/srv/demo/chapter.pdf"]}
                 = (Some (Raise (Exception "No available audio device")),
                    init_world {["/srv/demo/chapter.pdf"]})) by reflexivity.
  split; [exact Hrun|].
  apply (main_raises_only_from_construction headless_host calm_env 3
           {["/srv/demo/chapter.pdf"]} "No available audio device"
           (init_world {["/srv/demo/chapter.pdf"]}) Hrun).
Defined.

Lemma main_stops_after_failed_startup_witness :
  main demo_host attach_fails_env 3 {["/srv/demo/chapter.pdf"]}
  = (Some (Ok tt),
     (startup demo_host attach_fails_env (init_world {["/srv/demo/chapter.pdf"]})).2)
  /\ Forall (fun e => is_ingestion e = true)
            (trace (startup demo_host attach_fails_env
                      (init_world {["/srv/demo/chapter.pdf"]})).2)
  /\ vector_store_id
       (startup demo_host attach_fails_env (init_world {["/srv/demo/chapter.pdf"]})).2
     = VNone.
Proof.
  apply (main_stops_after_failed_startup demo_host attach_fails_env 3
           {["/srv/demo/chapter.pdf"]} "attach rejected"); [reflexivity|].
  vm_compute; reflexivity.
Defined.

Lemma main_keeps_ingested_vector_store_witness :
  vector_store_id (main demo_host calm_env 2 {["/srv/demo/chapter.pdf"]}).2 = VStr "vs_1".
Proof.
  apply (main_keeps_ingested_vector_store demo_host calm_env 2
           {["/srv/demo/chapter.pdf"]} (VStr "vs_1")
           (startup demo_host calm_env (init_world {["/srv/demo/chapter.pdf"]})).2);
    [reflexivity|vm_compute; reflexivity].
Defined.

Lemma conversation_loop_last_words_witness :
  exists evs,
    trace (conversation_loop interrupt_env 1 ready_world).2 = trace ready_world ++ evs
    /\ (last (speech_invocations evs) = Some (VStr "Goodbye!")
        \/ (Ok tt = Raise KeyboardInterrupt
            /\ last (speech_invocations evs)
               = Some (VStr "Sorry, I encountered an error."))).
Proof.
  apply (conversation_loop_last_words interrupt_env 1 ready_world
           (conversation_loop interrupt_env 1 ready_world).2 (Ok tt)).
  vm_compute; reflexivity.
Defined.

Lemma transcription_error_is_queried_witness :
  exists o,
    In (Lib (responses_create MODEL_NAME (VStr "vs_1")
               (VStr "Error with speech recognition: Service unavailable") VNone, o))
       (trace (iteration deaf_env ready_world).2).
Proof.
  apply (transcription_error_is_queried deaf_env "/tmp/tmp2.wav" "Service unavailable"
           ready_world (record_audio deaf_env 5 44100 ready_world).2);
    [reflexivity|vm_compute; reflexivity|reflexivity].
Defined.

Lemma uninitialised_pass_speaks_notice_witness :
  exists evs,
    trace (loop_body calm_env (init_world ∅)).2
    = trace (speech_to_text calm_env "/tmp/tmp2.wav" "hi-IN"
               (record_audio calm_env 5 44100 (init_world ∅)).2).2
        ++ Enter_process_query (VStr "what is the answer")
        :: Enter_text_to_speech
             (VStr "RAG system not initialized. Please upload a document first.")
        :: evs
    /\ Forall (fun e => is_speech_entry e = false) evs.
Proof.
  apply (uninitialised_pass_speaks_notice calm_env "/tmp/tmp2.wav"
           (VStr "what is the answer") (init_world ∅)
           (record_audio calm_env 5 44100 (init_world ∅)).2
           (speech_to_text calm_env "/tmp/tmp2.wav" "hi-IN"
              (record_audio calm_env 5 44100 (init_world ∅)).2).2);
    [reflexivity|vm_compute; reflexivity|vm_compute; reflexivity|reflexivity].
Defined.
